(** * SpinCameraControls: a free-look camera controller

    Shallow embedding of [src/SpinCameraControls.ts].  The controller keeps a
    yaw/pitch pair and a drag flag, reacts to mouse, touch and wheel events of
    a DOM element, mutates a [THREE.PerspectiveCamera] and dispatches
    [start] / [change] / [end] events.  [connect] and [disconnect] register
    and remove its handlers on the element.

    Numbers.  JavaScript numbers are IEEE doubles; here they are the real
    numbers of the Standard Library, so [NaN], infinities and rounding are
    outside the model.  The sign of a zero is kept where the program can
    tell it: in the two arguments of [Math.atan2], which come from the
    camera.  [Math.asin] is the library's total [asin]. *)

From Stdlib Require Import String.
From Stdlib Require Import Reals Lra List Bool ZArith.
Import ListNotations.

Local Open Scope R_scope.

(** A JavaScript number whose sign of zero can be told: its real value and,
    read only when the value is 0, whether it is [-0]. *)
Module Number.

Record t : Type := mk { value : R; negativeZero : bool }.

End Number.

(** ** The [Math] builtins the controller calls *)

Module Math.

Definition PI : R := Rtrigo1.PI.
Definition max (a b : R) : R := Rmax a b.
Definition min (a b : R) : R := Rmin a b.
Definition sin (a : R) : R := Rtrigo_def.sin a.
Definition cos (a : R) : R := Rtrigo_def.cos a.
Definition asin (a : R) : R := Ratan.asin a.

(** [Math.atan2(y, x)]: the angle of the point [(x, y)], in [-PI, PI].
    Where an argument is a zero its sign decides, as ECMAScript lays down:
    with [x] negative or [-0], [y = +0] gives [PI] and [y = -0] gives [-PI];
    with [x] positive or [+0], a zero [y] gives a zero. *)
Definition atan2 (y x : Number.t) : R :=
  let yv := Number.value y in
  let xv := Number.value x in
  if Rlt_dec 0 xv then atan (yv / xv)
  else if Rlt_dec xv 0 then
    if Rlt_dec 0 yv then atan (yv / xv) + PI
    else if Rlt_dec yv 0 then atan (yv / xv) - PI
    else if Number.negativeZero y then - PI else PI
  else if Rlt_dec 0 yv then PI / 2
  else if Rlt_dec yv 0 then - PI / 2
  else if Number.negativeZero x
       then (if Number.negativeZero y then - PI else PI)
       else 0.

End Math.

(** [THREE.MathUtils.clamp(value, min, max)] is
    [Math.max(min, Math.min(max, value))]. *)
Module MathUtils.

Definition clamp (value min max : R) : R :=
  Math.max min (Math.min max value).

End MathUtils.

(** ** Data *)

(** [THREE.Vector3]. *)
Module Vector3.

Record t : Type := mk { x : R; y : R; z : R }.

(** [v.add(w)]: component-wise sum. *)
Definition add (v w : t) : t :=
  mk (x v + x w) (y v + y w) (z v + z w).

End Vector3.

(** The object literal [{ x, y }] kept in [_previousMousePosition]. *)
Module Point.

Record t : Type := mk { x : R; y : R }.

End Point.

(** [THREE.MOUSE] and [THREE.TOUCH]: the actions a button or a finger count
    can be bound to.  The TypeScript field types only allow [ROTATE]; the
    other members are what a caller can assign at run time. *)
Module MOUSE.
Inductive t : Type := ROTATE | DOLLY | PAN.

Definition eqb (a b : t) : bool :=
  match a, b with
  | ROTATE, ROTATE | DOLLY, DOLLY | PAN, PAN => true
  | _, _ => false
  end.
End MOUSE.

Module TOUCH.
Inductive t : Type := ROTATE | PAN | DOLLY_PAN | DOLLY_ROTATE.
End TOUCH.

(** [mouseButtons: { LEFT?, RIGHT? }] and [touches: { ONE?, TWO? }]; an
    absent key is [None] ([undefined]). *)
Record MouseButtons : Type := { LEFT : option MOUSE.t; RIGHT : option MOUSE.t }.
Record Touches : Type := { ONE : option TOUCH.t; TWO : option TOUCH.t }.

(** DOM events, reduced to the fields the handlers read. *)
Module MouseEvent.
Record t : Type := mk { button : Z; clientX : R; clientY : R }.
End MouseEvent.

Module Touch.
Record t : Type := mk { clientX : R; clientY : R }.
End Touch.

Module TouchEvent.
Record t : Type := mk { touches : list Touch.t }.
End TouchEvent.

Module WheelEvent.
Record t : Type := mk { deltaY : R }.
End WheelEvent.

(** The three events of [SpinCameraControlsEventMap]. *)
Inductive ControlsEvent : Type := changeEvent | startEvent | endEvent.

(** What a handler does to the outside world, in order: a call of
    [this.dispatchEvent] or of [e.preventDefault] on the DOM event it was
    given. *)
Inductive Effect : Type :=
| dispatchEvent (ev : ControlsEvent)
| preventDefault.

(** ** The camera

    [THREE.PerspectiveCamera] belongs to three.js, not to this repository.
    The controller reads and writes the plain fields [position] and [fov] and
    calls three methods.  The fields are record fields; the orientation
    ([quaternion] and the matrices derived from it) and the projection matrix
    are kept abstract, and the three methods are an interface:
    [getWorldDirection] reads the camera, [lookAt] replaces its orientation,
    [updateProjectionMatrix] replaces its projection matrix.  A component
    of the world direction that is zero may be [+0] or [-0] (three.js
    negates a column of the world matrix to get the direction of a camera);
    [negativeZeros] tells which, for the two components the controller
    hands to [Math.atan2]. *)

Record PerspectiveCamera (Pose Projection : Type) : Type := mkCamera {
  position : Vector3.t;
  fov : R;
  pose : Pose;
  projectionMatrix : Projection
}.

Arguments mkCamera {Pose Projection} _ _ _ _.
Arguments position {Pose Projection} _.
Arguments fov {Pose Projection} _.
Arguments pose {Pose Projection} _.
Arguments projectionMatrix {Pose Projection} _.

Class Three (Pose Projection : Type) : Type := {
  (* the unit vector [camera.getWorldDirection(v)] stores into [v] *)
  getWorldDirection : PerspectiveCamera Pose Projection -> Vector3.t;
  (* whether the [x] and the [z] of that vector, where zero, are [-0] *)
  negativeZeros : PerspectiveCamera Pose Projection -> bool * bool;
  (* the orientation [camera.lookAt(target)] gives the camera *)
  lookAtPose : PerspectiveCamera Pose Projection -> Vector3.t -> Pose;
  (* the matrix [camera.updateProjectionMatrix()] computes *)
  perspective : PerspectiveCamera Pose Projection -> Projection
}.

Section Camera.

Context {Pose Projection : Type} {three : Three Pose Projection}.

Definition set_fov (v : R) (c : PerspectiveCamera Pose Projection) :=
  mkCamera (position c) v (pose c) (projectionMatrix c).

Definition lookAt (target : Vector3.t) (c : PerspectiveCamera Pose Projection) :=
  mkCamera (position c) (fov c) (lookAtPose c target) (projectionMatrix c).

Definition updateProjectionMatrix (c : PerspectiveCamera Pose Projection) :=
  mkCamera (position c) (fov c) (pose c) (perspective c).

(** [direction.x] and [direction.z] of the world direction, as JavaScript
    numbers. *)
Definition worldDirectionX (c : PerspectiveCamera Pose Projection) : Number.t :=
  Number.mk (Vector3.x (getWorldDirection c)) (fst (negativeZeros c)).

Definition worldDirectionZ (c : PerspectiveCamera Pose Projection) : Number.t :=
  Number.mk (Vector3.z (getWorldDirection c)) (snd (negativeZeros c)).

End Camera.

(** ** The controller object *)

Record SpinCameraControls (Pose Projection : Type) : Type := mkControls {
  camera : PerspectiveCamera Pose Projection;
  rotateSensitivity : R;
  enableZoom : bool;
  zoomSensitivity : R;
  mouseButtons : MouseButtons;
  touches : Touches;
  _yaw : R;
  _pitch : R;
  _minFov : R;
  _maxFov : R;
  _isDragging : bool;
  _previousMousePosition : Point.t
}.

Arguments mkControls {Pose Projection} _ _ _ _ _ _ _ _ _ _ _ _.
Arguments camera {Pose Projection} _.
Arguments rotateSensitivity {Pose Projection} _.
Arguments enableZoom {Pose Projection} _.
Arguments zoomSensitivity {Pose Projection} _.
Arguments mouseButtons {Pose Projection} _.
Arguments touches {Pose Projection} _.
Arguments _yaw {Pose Projection} _.
Arguments _pitch {Pose Projection} _.
Arguments _minFov {Pose Projection} _.
Arguments _maxFov {Pose Projection} _.
Arguments _isDragging {Pose Projection} _.
Arguments _previousMousePosition {Pose Projection} _.

Section Controls.

Context {Pose Projection : Type} {three : Three Pose Projection}.

(** The field initialisers and the constructor, for a controller that is
    not yet connected to an element. *)
Definition new (cam : PerspectiveCamera Pose Projection)
  : SpinCameraControls Pose Projection :=
  {| camera := cam;
     rotateSensitivity := 0.005;
     enableZoom := true;
     zoomSensitivity := 0.01;
     mouseButtons := {| LEFT := Some MOUSE.ROTATE; RIGHT := None |};
     touches := {| ONE := Some TOUCH.ROTATE; TWO := None |};
     _yaw := 0;
     _pitch := 0;
     _minFov := 30;
     _maxFov := 90;
     _isDragging := false;
     _previousMousePosition := Point.mk 0 0 |}.

(** *** Field assignments *)

Definition set_camera (v : PerspectiveCamera Pose Projection)
  (s : SpinCameraControls Pose Projection) : SpinCameraControls Pose Projection :=
  mkControls v (rotateSensitivity s) (enableZoom s) (zoomSensitivity s)
    (mouseButtons s) (touches s) (_yaw s) (_pitch s) (_minFov s) (_maxFov s)
    (_isDragging s) (_previousMousePosition s).

Definition set_yaw (v : R)
  (s : SpinCameraControls Pose Projection) : SpinCameraControls Pose Projection :=
  mkControls (camera s) (rotateSensitivity s) (enableZoom s) (zoomSensitivity s)
    (mouseButtons s) (touches s) v (_pitch s) (_minFov s) (_maxFov s)
    (_isDragging s) (_previousMousePosition s).

Definition set_pitch (v : R)
  (s : SpinCameraControls Pose Projection) : SpinCameraControls Pose Projection :=
  mkControls (camera s) (rotateSensitivity s) (enableZoom s) (zoomSensitivity s)
    (mouseButtons s) (touches s) (_yaw s) v (_minFov s) (_maxFov s)
    (_isDragging s) (_previousMousePosition s).

Definition set_isDragging (v : bool)
  (s : SpinCameraControls Pose Projection) : SpinCameraControls Pose Projection :=
  mkControls (camera s) (rotateSensitivity s) (enableZoom s) (zoomSensitivity s)
    (mouseButtons s) (touches s) (_yaw s) (_pitch s) (_minFov s) (_maxFov s)
    v (_previousMousePosition s).

Definition set_previousMousePosition (v : Point.t)
  (s : SpinCameraControls Pose Projection) : SpinCameraControls Pose Projection :=
  mkControls (camera s) (rotateSensitivity s) (enableZoom s) (zoomSensitivity s)
    (mouseButtons s) (touches s) (_yaw s) (_pitch s) (_minFov s) (_maxFov s)
    (_isDragging s) v.

(** *** Methods

    A method runs on the controller ([this]), returns a value, leaves the
    controller in a new state and performs a sequence of effects. *)

Definition Method (A : Type) : Type :=
  SpinCameraControls Pose Projection
  -> A * SpinCameraControls Pose Projection * list Effect.

Definition ret {A} (a : A) : Method A := fun this => (a, this, []).

Definition bind {A B} (m : Method A) (k : A -> Method B) : Method B :=
  fun this =>
    let '(a, this1, l1) := m this in
    let '(b, this2, l2) := k a this1 in
    (b, this2, l1 ++ l2).

(** read [this] *)
Definition this_ : Method (SpinCameraControls Pose Projection) :=
  fun this => (this, this, []).

(** assign to a field of [this] *)
Definition assign
  (f : SpinCameraControls Pose Projection -> SpinCameraControls Pose Projection)
  : Method unit :=
  fun this => (tt, f this, []).

(** call out: [this.dispatchEvent(..)] or [e.preventDefault()] *)
Definition perform (eff : Effect) : Method unit :=
  fun this => (tt, this, [eff]).

(** the controller and the effects a [void] method leaves *)
Definition exec (m : Method unit) (this : SpinCameraControls Pose Projection)
  : SpinCameraControls Pose Projection * list Effect :=
  let '(_, this', l) := m this in (this', l).

End Controls.

Declare Scope method_scope.
Delimit Scope method_scope with method.
Notation "x <- m ;; k" := (bind m (fun x => k))
  (at level 61, m at next level, right associativity) : method_scope.
Notation "m ;; k" := (bind m (fun _ => k))
  (at level 61, right associativity) : method_scope.

Local Open Scope method_scope.

(** ** The event handlers *)

Section Handlers.

Context {Pose Projection : Type} {three : Three Pose Projection}.

(** [_updateCameraRotation]: aim the camera along the direction given by
    [_yaw] and [_pitch], then dispatch [change]. *)
Definition _updateCameraRotation : Method (Pose:=Pose) (Projection:=Projection) unit :=
  this <- this_ ;;
  let target :=
    Vector3.mk (Math.cos (_pitch this) * Math.sin (_yaw this))
               (Math.sin (_pitch this))
               (Math.cos (_pitch this) * Math.cos (_yaw this)) in
  let target := Vector3.add target (position (camera this)) in
  assign (fun this => set_camera (lookAt target (camera this)) this) ;;
  perform (dispatchEvent changeEvent).

(** [_onWheel] *)
Definition _onWheel (e : WheelEvent.t) : Method (Pose:=Pose) (Projection:=Projection) unit :=
  this <- this_ ;;
  if negb (enableZoom this) then ret tt else
  perform preventDefault ;;
  assign (fun this =>
    set_camera (set_fov (fov (camera this)
                         + WheelEvent.deltaY e * zoomSensitivity this)
                        (camera this)) this) ;;
  assign (fun this =>
    set_camera (set_fov (MathUtils.clamp (fov (camera this))
                                         (_minFov this) (_maxFov this))
                        (camera this)) this) ;;
  assign (fun this => set_camera (updateProjectionMatrix (camera this)) this).

(** The [switch (e.button)] of [_onMouseDown]: the action bound to the
    pressed button, [undefined] for any button other than 0 and 2. *)
Definition mouseAction (buttons : MouseButtons) (button : Z) : option MOUSE.t :=
  if (button =? 0)%Z then LEFT buttons
  else if (button =? 2)%Z then RIGHT buttons
  else None.

(** [mouseAction == undefined || mouseAction !== THREE.MOUSE.ROTATE] *)
Definition notRotate (action : option MOUSE.t) : bool :=
  match action with
  | None => true
  | Some a => negb (MOUSE.eqb a MOUSE.ROTATE)
  end.

(** [_onMouseDown] *)
Definition _onMouseDown (e : MouseEvent.t) : Method (Pose:=Pose) (Projection:=Projection) unit :=
  this <- this_ ;;
  if notRotate (mouseAction (mouseButtons this) (MouseEvent.button e))
  then ret tt else
  assign (set_isDragging true) ;;
  this <- this_ ;;
  let direction := getWorldDirection (camera this) in
  assign (set_yaw (Math.atan2 (worldDirectionX (camera this))
                              (worldDirectionZ (camera this)))) ;;
  assign (set_pitch (Math.asin (Vector3.y direction))) ;;
  assign (set_previousMousePosition
            (Point.mk (MouseEvent.clientX e) (MouseEvent.clientY e))) ;;
  perform (dispatchEvent startEvent).

(** [_onMouseMove] *)
Definition _onMouseMove (e : MouseEvent.t) : Method (Pose:=Pose) (Projection:=Projection) unit :=
  this <- this_ ;;
  if negb (_isDragging this) then ret tt else
  let dx := MouseEvent.clientX e - Point.x (_previousMousePosition this) in
  let dy := MouseEvent.clientY e - Point.y (_previousMousePosition this) in
  assign (fun this => set_yaw (_yaw this - dx * rotateSensitivity this) this) ;;
  assign (fun this => set_pitch (_pitch this - dy * rotateSensitivity this) this) ;;
  assign (fun this =>
    set_pitch (Math.max (- Math.PI / 2) (Math.min (Math.PI / 2) (_pitch this))) this) ;;
  _updateCameraRotation ;;
  assign (set_previousMousePosition
            (Point.mk (MouseEvent.clientX e) (MouseEvent.clientY e))).

(** [_onMouseUp], also registered for [mouseleave] *)
Definition _onMouseUp : Method (Pose:=Pose) (Projection:=Projection) unit :=
  assign (set_isDragging false) ;;
  perform (dispatchEvent endEvent).

(** [_onTouchStart]; [e.touches.length === 1] is the one-element list, whose
    element is [e.touches[0]]. *)
Definition _onTouchStart (e : TouchEvent.t) : Method (Pose:=Pose) (Projection:=Projection) unit :=
  match TouchEvent.touches e with
  | [touch0] =>
      assign (set_previousMousePosition
                (Point.mk (Touch.clientX touch0) (Touch.clientY touch0)))
  | _ => ret tt
  end ;;
  perform (dispatchEvent startEvent).

(** [_onTouchMove] *)
Definition _onTouchMove (e : TouchEvent.t) : Method (Pose:=Pose) (Projection:=Projection) unit :=
  match TouchEvent.touches e with
  | [touch0] =>
      this <- this_ ;;
      let dx := Touch.clientX touch0 - Point.x (_previousMousePosition this) in
      let dy := Touch.clientY touch0 - Point.y (_previousMousePosition this) in
      assign (fun this => set_yaw (_yaw this - dx * rotateSensitivity this) this) ;;
      assign (fun this => set_pitch (_pitch this - dy * rotateSensitivity this) this) ;;
      assign (fun this =>
        set_pitch (Math.max (- Math.PI / 2) (Math.min (Math.PI / 2) (_pitch this))) this) ;;
      _updateCameraRotation ;;
      assign (set_previousMousePosition
                (Point.mk (Touch.clientX touch0) (Touch.clientY touch0)))
  | _ => ret tt
  end.

(** [_onTouchEnd] *)
Definition _onTouchEnd : Method (Pose:=Pose) (Projection:=Projection) unit :=
  perform (dispatchEvent endEvent).

(** *** The listeners [connect] registers on the element *)

Inductive DomEvent : Type :=
| mousedown (e : MouseEvent.t)
| mousemove (e : MouseEvent.t)
| mouseup
| mouseleave
| touchstart (e : TouchEvent.t)
| touchmove (e : TouchEvent.t)
| touchend
| wheel (e : WheelEvent.t).

Definition listener (ev : DomEvent) : Method (Pose:=Pose) (Projection:=Projection) unit :=
  match ev with
  | mousedown e => _onMouseDown e
  | mousemove e => _onMouseMove e
  | mouseup => _onMouseUp
  | mouseleave => _onMouseUp
  | touchstart e => _onTouchStart e
  | touchmove e => _onTouchMove e
  | touchend => _onTouchEnd
  | wheel e => _onWheel e
  end.

(** One delivered event: the controller afterwards and what was emitted. *)
Definition deliver (ev : DomEvent) (this : SpinCameraControls Pose Projection)
  : SpinCameraControls Pose Projection * list Effect :=
  exec (listener ev) this.

(** The controllers a sequence of delivered events passes through, one per
    event, in order. *)
Fixpoint history (evs : list DomEvent) (this : SpinCameraControls Pose Projection)
  : list (SpinCameraControls Pose Projection) :=
  match evs with
  | [] => []
  | ev :: rest =>
      let this' := fst (deliver ev this) in
      this' :: history rest this'
  end.

End Handlers.

(** ** Vocabulary of the specification *)

Section Vocabulary.

Context {Pose Projection : Type} {three : Three Pose Projection}.


(** The look direction of an angle pair:
    [(cos(pitch) sin(yaw), sin(pitch), cos(pitch) cos(yaw))]. *)
Definition anglesToDirection (yaw pitch : R) : Vector3.t :=
  Vector3.mk (Math.cos pitch * Math.sin yaw)
             (Math.sin pitch)
             (Math.cos pitch * Math.cos yaw).


(** The part of the controller a drag tracks. *)
Definition tracked (this : SpinCameraControls Pose Projection) : Point.t * R * R :=
  (_previousMousePosition this, _yaw this, _pitch this).

End Vocabulary.

(** ** Event sequences *)

Section Sequences.

Context {Pose Projection : Type} {three : Three Pose Projection}.

(** Deliver a sequence of events one after the other: the controller at
    the end and everything emitted on the way, in order. *)
Fixpoint play (evs : list DomEvent) (this : SpinCameraControls Pose Projection)
  : SpinCameraControls Pose Projection * list Effect :=
  match evs with
  | [] => (this, [])
  | ev :: rest =>
      let (this1, l1) := deliver ev this in
      let (this2, l2) := play rest this1 in
      (this2, l1 ++ l2)
  end.

(** The public settings and the private zoom bounds of a controller. *)
Definition configuration (this : SpinCameraControls Pose Projection)
  : R * bool * R * MouseButtons * Touches * R * R :=
  (rotateSensitivity this, enableZoom this, zoomSensitivity this,
   mouseButtons this, touches this, _minFov this, _maxFov this).

(** The field of view lies between the zoom bounds of [bounds]. *)
Definition fov_in_range (bounds this : SpinCameraControls Pose Projection) : Prop :=
  _minFov bounds <= fov (camera this) <= _maxFov bounds.

(** Squared distance between two points. *)
Definition distance2 (v w : Vector3.t) : R :=
  (Vector3.x v - Vector3.x w) * (Vector3.x v - Vector3.x w)
  + (Vector3.y v - Vector3.y w) * (Vector3.y v - Vector3.y w)
  + (Vector3.z v - Vector3.z w) * (Vector3.z v - Vector3.z w).

(** The point [_updateCameraRotation] aims the camera at. *)
Definition aim (this : SpinCameraControls Pose Projection) : Vector3.t :=
  Vector3.add (anglesToDirection (_yaw this) (_pitch this))
              (position (camera this)).

(** The camera faces the direction of the stored yaw and pitch. *)
Definition in_sync (this : SpinCameraControls Pose Projection) : Prop :=
  getWorldDirection (camera this)
  = anglesToDirection (_yaw this) (_pitch this).


End Sequences.

(** ** Connecting to a DOM element

    [connect], [disconnect] and [dispose] only touch [this.domElement], a
    field of the base class [THREE.Controls], and the element: its event
    listener list and its [style.touchAction].  An event listener is
    identified, as in the DOM standard, by its type, its callback and its
    capture flag: [addEventListener] appends a listener unless an identical
    one is there already, [removeEventListener] removes the identical
    one. *)

(** The arrow-function fields of one controller: each is created once, with
    the controller, so each is one callback object. *)
Module Handler.
Inductive t : Type :=
| _onMouseDown | _onMouseMove | _onMouseUp
| _onTouchStart | _onTouchMove | _onTouchEnd
| _onWheel.

Definition eqb (a b : t) : bool :=
  match a, b with
  | _onMouseDown, _onMouseDown | _onMouseMove, _onMouseMove
  | _onMouseUp, _onMouseUp | _onTouchStart, _onTouchStart
  | _onTouchMove, _onTouchMove | _onTouchEnd, _onTouchEnd
  | _onWheel, _onWheel => true
  | _, _ => false
  end.
End Handler.

(** A callback is a handler of this controller or a function of other
    code. *)
Inductive Callback : Type :=
| own (h : Handler.t)
| foreign (id : nat).

Definition Callback_eqb (a b : Callback) : bool :=
  match a, b with
  | own h, own k => Handler.eqb h k
  | foreign i, foreign j => Nat.eqb i j
  | _, _ => false
  end.

Definition is_own (c : Callback) : bool :=
  match c with own _ => true | foreign _ => false end.

Module EventListener.
Record t : Type := mk {
  type : string;
  callback : Callback;
  capture : bool;
  passive : option bool
}.

(** two listeners the DOM takes for the same one *)
Definition same (a b : t) : bool :=
  String.eqb (type a) (type b)
  && Callback_eqb (callback a) (callback b)
  && Bool.eqb (capture a) (capture b).
End EventListener.

Module Element.
Record t : Type := mk {
  listeners : list EventListener.t;
  touchAction : string
}.

(** [element.addEventListener(type, callback, { passive })] *)
Definition addEventListener (type : string) (callback : Callback)
  (passive : option bool) (el : t) : t :=
  let l := EventListener.mk type callback false passive in
  if existsb (EventListener.same l) (listeners el) then el
  else mk (listeners el ++ [l]) (touchAction el).

(** [element.removeEventListener(type, callback)]; an element never holds
    two identical listeners, so dropping every identical one drops the
    one. *)
Definition removeEventListener (type : string) (callback : Callback) (el : t) : t :=
  let l := EventListener.mk type callback false None in
  mk (filter (fun l' => negb (EventListener.same l l')) (listeners el))
     (touchAction el).

(** [element.style.touchAction = value] *)
Definition set_touchAction (value : string) (el : t) : t :=
  mk (listeners el) value.
End Element.

(** [this.domElement] and the elements of the page, by identity. *)
Record Wiring : Type := mkWiring {
  domElement : option nat;
  document : nat -> Element.t
}.

(** Apply [f] to the element [id]. *)
Definition on_element (id : nat) (f : Element.t -> Element.t) (w : Wiring) : Wiring :=
  mkWiring (domElement w)
           (fun id' => if Nat.eqb id' id then f (document w id) else document w id').

(** [connect] and [disconnect] of the base class [THREE.Controls], which is
    not part of this repository. *)
Class ControlsBase : Type := {
  super_connect : nat -> Wiring -> Wiring;
  super_disconnect : Wiring -> Wiring
}.

Section Connect.

Context {base : ControlsBase}.

(** [connect(element)] *)
Definition connect (element : nat) (w : Wiring) : Wiring :=
  let w := super_connect element w in
  let w := on_element element
    (Element.addEventListener "mousedown" (own Handler._onMouseDown) None) w in
  let w := on_element element
    (Element.addEventListener "mousemove" (own Handler._onMouseMove) None) w in
  let w := on_element element
    (Element.addEventListener "mouseup" (own Handler._onMouseUp) None) w in
  let w := on_element element
    (Element.addEventListener "mouseleave" (own Handler._onMouseUp) None) w in
  let w := on_element element
    (Element.addEventListener "touchstart" (own Handler._onTouchStart) None) w in
  let w := on_element element
    (Element.addEventListener "touchmove" (own Handler._onTouchMove) None) w in
  let w := on_element element
    (Element.addEventListener "touchend" (own Handler._onTouchEnd) None) w in
  let w := on_element element
    (Element.addEventListener "wheel" (own Handler._onWheel) (Some false)) w in
  on_element element (Element.set_touchAction "none") w.

(** [disconnect()] *)
Definition disconnect (w : Wiring) : Wiring :=
  match domElement w with
  | None => w
  | Some element =>
      let w := on_element element
        (Element.removeEventListener "mousedown" (own Handler._onMouseDown)) w in
      let w := on_element element
        (Element.removeEventListener "mousemove" (own Handler._onMouseMove)) w in
      let w := on_element element
        (Element.removeEventListener "mouseup" (own Handler._onMouseUp)) w in
      let w := on_element element
        (Element.removeEventListener "mouseleave" (own Handler._onMouseUp)) w in
      let w := on_element element
        (Element.removeEventListener "touchstart" (own Handler._onTouchStart)) w in
      let w := on_element element
        (Element.removeEventListener "touchmove" (own Handler._onTouchMove)) w in
      let w := on_element element
        (Element.removeEventListener "touchend" (own Handler._onTouchEnd)) w in
      let w := on_element element
        (Element.removeEventListener "wheel" (own Handler._onWheel)) w in
      let w := on_element element (Element.set_touchAction "auto") w in
      super_disconnect w
  end.

(** [dispose()] *)
Definition dispose (w : Wiring) : Wiring := disconnect w.

(** The [connect] of three.js's [Controls], for stating what is assumed of
    the base class: [if (this.domElement !== null) this.disconnect();
    this.domElement = element], where [this.disconnect] is the [disconnect]
    above. *)
Definition controls_connect (element : nat) (w : Wiring) : Wiring :=
  let w := match domElement w with
           | Some _ => disconnect w
           | None => w
           end in
  mkWiring (Some element) (document w).

End Connect.

(** The handlers of this controller an element holds for events of [type],
    in the order they would be called. *)
Definition registered (type : string) (el : Element.t) : list Handler.t :=
  flat_map
    (fun l =>
       match EventListener.callback l with
       | own h => if String.eqb (EventListener.type l) type then [h] else []
       | foreign _ => []
       end)
    (Element.listeners el).

(** The element holds no listener of this controller. *)
Definition unwired (el : Element.t) : Prop :=
  forallb (fun l => negb (is_own (EventListener.callback l)))
          (Element.listeners el) = true.

(** The [type] under which the browser delivers a DOM event. *)
Definition eventType (ev : DomEvent) : string :=
  match ev with
  | mousedown _ => "mousedown"
  | mousemove _ => "mousemove"
  | mouseup => "mouseup"
  | mouseleave => "mouseleave"
  | touchstart _ => "touchstart"
  | touchmove _ => "touchmove"
  | touchend => "touchend"
  | wheel _ => "wheel"
  end.

(** The listeners of this controller, in the order of registration. *)
Definition controller_listeners : list EventListener.t :=
  [EventListener.mk "mousedown" (own Handler._onMouseDown) false None;
   EventListener.mk "mousemove" (own Handler._onMouseMove) false None;
   EventListener.mk "mouseup" (own Handler._onMouseUp) false None;
   EventListener.mk "mouseleave" (own Handler._onMouseUp) false None;
   EventListener.mk "touchstart" (own Handler._onTouchStart) false None;
   EventListener.mk "touchmove" (own Handler._onTouchMove) false None;
   EventListener.mk "touchend" (own Handler._onTouchEnd) false None;
   EventListener.mk "wheel" (own Handler._onWheel) false (Some false)].

Section Invoke.

Context {Pose Projection : Type} {three : Three Pose Projection}.

(** Calling the handler [h] with the event object of [ev]; [None] when [ev]
    carries no event object of the handler's parameter type.  [_onMouseUp]
    and [_onTouchEnd] take no parameter. *)
Definition invoke (h : Handler.t) (ev : DomEvent)
  : option (Method (Pose:=Pose) (Projection:=Projection) unit) :=
  match h, ev with
  | Handler._onMouseDown, (mousedown e | mousemove e) => Some (_onMouseDown e)
  | Handler._onMouseMove, (mousedown e | mousemove e) => Some (_onMouseMove e)
  | Handler._onMouseUp, _ => Some _onMouseUp
  | Handler._onTouchStart, (touchstart e | touchmove e) => Some (_onTouchStart e)
  | Handler._onTouchMove, (touchstart e | touchmove e) => Some (_onTouchMove e)
  | Handler._onTouchEnd, _ => Some _onTouchEnd
  | Handler._onWheel, wheel e => Some (_onWheel e)
  | _, _ => None
  end.

End Invoke.

(** ** A concrete camera

    A camera whose orientation is the vector it looks along, and whose
    projection is determined by its field of view: enough of three.js to run
    the controller on closed inputs. *)

#[export] Instance PointingCamera : Three Vector3.t R := {|
  getWorldDirection := fun c => pose c;
  negativeZeros := fun _ => (false, false);
  lookAtPose := fun c target =>
    Vector3.mk (Vector3.x target - Vector3.x (position c))
               (Vector3.y target - Vector3.y (position c))
               (Vector3.z target - Vector3.z (position c));
  perspective := fun c => fov c
|}.

(** The same camera reporting its zero components as [-0], which is what
    a three.js camera facing straight down -Z reports: [(-0, -0, -1)]. *)
Definition NegatingCamera : Three Vector3.t R := {|
  getWorldDirection := fun c => pose c;
  negativeZeros := fun _ => (true, true);
  lookAtPose := fun c target =>
    Vector3.mk (Vector3.x target - Vector3.x (position c))
               (Vector3.y target - Vector3.y (position c))
               (Vector3.z target - Vector3.z (position c));
  perspective := fun c => fov c
|}.

(** A camera at the origin with three.js's default field of view, looking
    along [d]. *)
Definition cameraFacing (d : Vector3.t) : PerspectiveCamera Vector3.t R :=
  mkCamera (Vector3.mk 0 0 0) 50 d 50.

(** Facing -Z, as a camera is after construction. *)
Definition camera0 : PerspectiveCamera Vector3.t R :=
  cameraFacing (Vector3.mk 0 0 (-1)).

(** A new controller on that camera, and the same controller while the left
    button is held down at (10, 10). *)
Definition fresh : SpinCameraControls Vector3.t R := new camera0.

Definition pressed : SpinCameraControls Vector3.t R :=
  fst (deliver (mousedown (MouseEvent.mk 0 10 10)) fresh).

(** A new controller after [controls.enableZoom = false]. *)
Definition zoomDisabled : SpinCameraControls Vector3.t R :=
  mkControls camera0 0.005 false 0.01
    {| LEFT := Some MOUSE.ROTATE; RIGHT := None |}
    {| ONE := Some TOUCH.ROTATE; TWO := None |}
    0 0 30 90 false (Point.mk 0 0).

(** A new controller after [controls.touches = {}]: no touch count is bound
    to the rotate action. *)
Definition touchUnbound : SpinCameraControls Vector3.t R :=
  mkControls camera0 0.005 true 0.01
    {| LEFT := Some MOUSE.ROTATE; RIGHT := None |}
    {| ONE := None; TWO := None |}
    0 0 30 90 false (Point.mk 0 0).



(** A controller whose camera faces the direction of its angles
    [yaw = 0], [pitch = 0]. *)
Definition synced : SpinCameraControls Vector3.t R :=
  new (cameraFacing (anglesToDirection 0 0)).

(** A base class whose [connect] stores the element in [this.domElement]
    and whose [disconnect] does nothing. *)
#[export] Instance StoringBase : ControlsBase := {|
  super_connect := fun element w => mkWiring (Some element) (document w);
  super_disconnect := fun w => w
|}.

(** The base class of three.js: [connect] as [controls_connect], an empty
    [disconnect]. *)
Definition ThreeControls : ControlsBase := {|
  super_connect := fun element w => controls_connect (base:=StoringBase) element w;
  super_disconnect := fun w => w
|}.

(** A page whose elements all carry one listener of other code, a
    capturing click listener, and the touch action [pan-y]; a controller
    that has no element yet. *)
Definition page0 : Wiring :=
  mkWiring None
    (fun _ => Element.mk [EventListener.mk "click" (foreign 0) true None] "pan-y").

(** ** Properties *)

(** Run a handler symbolically: unfold the method combinators and the
    field assignments, then compute the record projections. *)
Ltac run_handler :=
  cbv beta iota zeta delta
    [deliver listener exec bind ret this_ assign perform
     _onWheel _onMouseDown _onMouseMove _onMouseUp
     _onTouchStart _onTouchMove _onTouchEnd _updateCameraRotation
     set_camera set_yaw set_pitch set_isDragging set_previousMousePosition
     set_fov lookAt updateProjectionMatrix tracked
     camera rotateSensitivity enableZoom zoomSensitivity mouseButtons touches
     _yaw _pitch _minFov _maxFov _isDragging _previousMousePosition
     position fov pose projectionMatrix negb app fst snd].

(** Decide every comparison of reals the goal branches on. *)
Ltac split_sign :=
  repeat match goal with
  | |- context [Rlt_dec ?a ?b] => destruct (Rlt_dec a b)
  | |- context [Rle_dec ?a ?b] => destruct (Rle_dec a b)
  end.

Section Properties.

Context {Pose Projection : Type} {three : Three Pose Projection}.

Implicit Types (this : SpinCameraControls Pose Projection).

Lemma half_pi_positive : 0 < Math.PI / 2.
Proof. unfold Math.PI. pose proof PI_RGT_0. lra. Qed.



Lemma vector_add_comm (v w : Vector3.t) : Vector3.add v w = Vector3.add w v.
Proof. unfold Vector3.add. f_equal; apply Rplus_comm. Qed.







(** C2.  While a drag is active, a mouse move to pointer [p] sets
    yaw to [yaw - (p.x - lastPointer.x) * rotateSensitivity], pitch to
    [clamp(pitch - (p.y - lastPointer.y) * rotateSensitivity, -PI/2, PI/2)],
    points the camera, by [lookAt], at
    [position + (cos(pitch) sin(yaw), sin(pitch), cos(pitch) cos(yaw))]
    for the new angles, dispatches exactly one [change], and sets
    lastPointer to [p]; nothing else of the controller changes. *)
Theorem drag_move_rotates (e : MouseEvent.t) this :
  _isDragging this = true ->
  let yaw' :=
    _yaw this
    - (MouseEvent.clientX e - Point.x (_previousMousePosition this))
      * rotateSensitivity this in
  let pitch' :=
    MathUtils.clamp
      (_pitch this
       - (MouseEvent.clientY e - Point.y (_previousMousePosition this))
         * rotateSensitivity this)
      (- Math.PI / 2) (Math.PI / 2) in
  let target :=
    Vector3.add (position (camera this)) (anglesToDirection yaw' pitch') in
  deliver (mousemove e) this =
    (mkControls (lookAt target (camera this))
       (rotateSensitivity this) (enableZoom this) (zoomSensitivity this)
       (mouseButtons this) (touches this) yaw' pitch'
       (_minFov this) (_maxFov this) true
       (Point.mk (MouseEvent.clientX e) (MouseEvent.clientY e)),
     [dispatchEvent changeEvent]).
Proof.
  intros Hdrag yaw' pitch' target.
  subst target. rewrite vector_add_comm.
  subst yaw' pitch'. unfold anglesToDirection, MathUtils.clamp.
  destruct this as [cam rs ez zs mb tc yaw pitch lo hi drag prev].
  cbn [_isDragging] in Hdrag. subst drag.
  run_handler. reflexivity.
Qed.

(** The same update for a touch move that reports exactly one touch point;
    this handler does not look at the drag flag. *)
Lemma single_touch_move_rotates (touch0 : Touch.t) this :
  let yaw' :=
    _yaw this
    - (Touch.clientX touch0 - Point.x (_previousMousePosition this))
      * rotateSensitivity this in
  let pitch' :=
    MathUtils.clamp
      (_pitch this
       - (Touch.clientY touch0 - Point.y (_previousMousePosition this))
         * rotateSensitivity this)
      (- Math.PI / 2) (Math.PI / 2) in
  let target :=
    Vector3.add (position (camera this)) (anglesToDirection yaw' pitch') in
  deliver (touchmove (TouchEvent.mk [touch0])) this =
    (mkControls (lookAt target (camera this))
       (rotateSensitivity this) (enableZoom this) (zoomSensitivity this)
       (mouseButtons this) (touches this) yaw' pitch'
       (_minFov this) (_maxFov this) (_isDragging this)
       (Point.mk (Touch.clientX touch0) (Touch.clientY touch0)),
     [dispatchEvent changeEvent]).
Proof.
  intros yaw' pitch' target.
  subst target. rewrite vector_add_comm.
  subst yaw' pitch'. unfold anglesToDirection, MathUtils.clamp.
  destruct this as [cam rs ez zs mb tc yaw pitch lo hi drag prev].
  run_handler. reflexivity.
Qed.

(** The direction [(0, 0, -1)]: [PI] with [x = +0], [-PI] with [x = -0]. *)
Lemma atan2_facing_minus_z (nx nz : bool) :
  Math.atan2 (Number.mk 0 nx) (Number.mk (-1) nz)
  = if nx then - Math.PI else Math.PI.
Proof.
  unfold Math.atan2, Math.PI. cbn [Number.value Number.negativeZero].
  destruct (Rlt_dec 0 (-1)) as [Hlt|_]; [lra|].
  destruct (Rlt_dec (-1) 0) as [_|Hge]; [|lra].
  destruct (Rlt_dec 0 0) as [Hn|_]; [lra|]. reflexivity.
Qed.

(** C3, as amended.  A mouse press whose button resolves to the rotate
    action, with the camera facing the world direction [d = (dx, dy, dz)],
    sets [yaw = atan2(dx, dz)] and [pitch = asin(dy)], records the press
    coordinate as lastPointer, opens the drag session and dispatches
    [start] (and nothing else changes); when [d = (0, 0, -1)] the derived
    pitch is 0 and the derived yaw is PI if the zero [dx] is [+0] and -PI
    if it is [-0]. *)
Theorem mouse_press_resyncs (e : MouseEvent.t) this :
  mouseAction (mouseButtons this) (MouseEvent.button e) = Some MOUSE.ROTATE ->
  let d := getWorldDirection (camera this) in
  deliver (mousedown e) this =
    (mkControls (camera this)
       (rotateSensitivity this) (enableZoom this) (zoomSensitivity this)
       (mouseButtons this) (touches this)
       (Math.atan2 (worldDirectionX (camera this)) (worldDirectionZ (camera this)))
       (Math.asin (Vector3.y d))
       (_minFov this) (_maxFov this) true
       (Point.mk (MouseEvent.clientX e) (MouseEvent.clientY e)),
     [dispatchEvent startEvent])
  /\ Number.value (worldDirectionX (camera this)) = Vector3.x d
  /\ Number.value (worldDirectionZ (camera this)) = Vector3.z d
  /\ (d = Vector3.mk 0 0 (-1) ->
      _yaw (fst (deliver (mousedown e) this))
      = (if fst (negativeZeros (camera this)) then - Math.PI else Math.PI)
      /\ _pitch (fst (deliver (mousedown e) this)) = 0).
Proof.
  intros Hrot d.
  assert (Hrun : deliver (mousedown e) this =
    (mkControls (camera this)
       (rotateSensitivity this) (enableZoom this) (zoomSensitivity this)
       (mouseButtons this) (touches this)
       (Math.atan2 (worldDirectionX (camera this)) (worldDirectionZ (camera this)))
       (Math.asin (Vector3.y d))
       (_minFov this) (_maxFov this) true
       (Point.mk (MouseEvent.clientX e) (MouseEvent.clientY e)),
     [dispatchEvent startEvent])).
  { subst d. destruct this as [cam rs ez zs mb tc yaw pitch lo hi drag prev].
    cbn [mouseButtons] in Hrot. run_handler. rewrite Hrot. reflexivity. }
  split; [exact Hrun|]. split; [reflexivity|]. split; [reflexivity|].
  intros Hd. rewrite Hrun. cbn [fst _yaw _pitch].
  unfold worldDirectionX, worldDirectionZ. fold d. rewrite Hd.
  cbn [Vector3.x Vector3.y Vector3.z].
  split; [apply atan2_facing_minus_z | apply asin_0].
Qed.

(** A press whose button does not resolve to the rotate action does
    nothing at all. *)
Lemma unbound_press_is_inert (e : MouseEvent.t) this :
  mouseAction (mouseButtons this) (MouseEvent.button e) <> Some MOUSE.ROTATE ->
  deliver (mousedown e) this = (this, []).
Proof.
  destruct this as [cam rs ez zs mb tc yaw pitch lo hi drag prev].
  cbn [mouseButtons]. intros Hno. run_handler.
  destruct (mouseAction mb (MouseEvent.button e)) as [[| |]|];
    try reflexivity. now elim Hno.
Qed.

(** C4, as amended.  A mouse move delivered while the drag flag is off
    leaves the whole controller, camera included, as it was and dispatches
    nothing.  A touch move with exactly one touch point is not gated by the
    drag flag: in every state, flag on or off, it updates yaw, pitch and
    lastPointer, turns the camera and dispatches one [change], exactly as a
    mouse move does during a drag. *)
Theorem idle_mouse_move_is_noop (e : MouseEvent.t) this :
  _isDragging this = false ->
  deliver (mousemove e) this = (this, [])
  /\ (forall (touch0 : Touch.t) this1,
        let yaw' :=
          _yaw this1
          - (Touch.clientX touch0 - Point.x (_previousMousePosition this1))
            * rotateSensitivity this1 in
        let pitch' :=
          MathUtils.clamp
            (_pitch this1
             - (Touch.clientY touch0 - Point.y (_previousMousePosition this1))
               * rotateSensitivity this1)
            (- Math.PI / 2) (Math.PI / 2) in
        let target :=
          Vector3.add (position (camera this1)) (anglesToDirection yaw' pitch') in
        deliver (touchmove (TouchEvent.mk [touch0])) this1 =
          (mkControls (lookAt target (camera this1))
             (rotateSensitivity this1) (enableZoom this1) (zoomSensitivity this1)
             (mouseButtons this1) (touches this1) yaw' pitch'
             (_minFov this1) (_maxFov this1) (_isDragging this1)
             (Point.mk (Touch.clientX touch0) (Touch.clientY touch0)),
           [dispatchEvent changeEvent])).
Proof.
  intros Hidle. split.
  - destruct this as [cam rs ez zs mb tc yaw pitch lo hi drag prev].
    cbn [_isDragging] in Hidle. subst drag. run_handler. reflexivity.
  - intros touch0 this1. apply single_touch_move_rotates.
Qed.

(** Touch-start never writes yaw, pitch, the drag flag or the camera,
    whatever the camera faces. *)
Lemma touch_start_keeps_angles (e : TouchEvent.t) this :
  _yaw (fst (deliver (touchstart e) this)) = _yaw this
  /\ _pitch (fst (deliver (touchstart e) this)) = _pitch this
  /\ _isDragging (fst (deliver (touchstart e) this)) = _isDragging this
  /\ camera (fst (deliver (touchstart e) this)) = camera this.
Proof.
  destruct this as [cam rs ez zs mb tc yaw pitch lo hi drag prev].
  destruct e as [[|t0 [|t1 ts]]]; run_handler; repeat split.
Qed.

(** Touch-start dispatches [start] whatever [touches] binds. *)
Lemma touch_start_always_starts (e : TouchEvent.t) this :
  snd (deliver (touchstart e) this) = [dispatchEvent startEvent].
Proof.
  destruct this as [cam rs ez zs mb tc yaw pitch lo hi drag prev].
  destruct e as [[|t0 [|t1 ts]]]; run_handler; reflexivity.
Qed.

(** C7, as amended.  Every release and every leave sets the drag flag off
    and dispatches [end], whether or not a drag was active; every touch-end
    dispatches [end], whether or not a drag was active, and leaves the
    controller, drag flag included, as it was. *)
Theorem release_always_ends this :
  deliver mouseup this = (set_isDragging false this, [dispatchEvent endEvent])
  /\ deliver mouseleave this = (set_isDragging false this, [dispatchEvent endEvent])
  /\ deliver touchend this = (this, [dispatchEvent endEvent]).
Proof.
  destruct this as [cam rs ez zs mb tc yaw pitch lo hi drag prev].
  repeat split.
Qed.

(** No handler writes the zoom bounds. *)
Lemma fov_bounds_fixed (ev : DomEvent) this :
  _minFov (fst (deliver ev this)) = _minFov this
  /\ _maxFov (fst (deliver ev this)) = _maxFov this.
Proof.
  destruct this as [cam rs ez zs mb tc yaw pitch lo hi drag prev].
  destruct ev as [e|e| | |e|e| |e]; run_handler.
  - destruct (notRotate _); split; reflexivity.
  - destruct drag; split; reflexivity.
  - split; reflexivity.
  - split; reflexivity.
  - destruct e as [[|t0 [|t1 ts]]]; split; reflexivity.
  - destruct e as [[|t0 [|t1 ts]]]; split; reflexivity.
  - split; reflexivity.
  - destruct ez; split; reflexivity.
Qed.

(** C8.  With zoom enabled, a wheel event with scroll delta [v] sets the
    field of view to [clamp(fov + v * zoomSensitivity, fovMin, fovMax)],
    recomputes the projection for the camera with that field of view, calls
    [preventDefault] and dispatches nothing, so no [change]; the bounds are
    30 and 90 on a new controller and no event changes them; and with
    bounds 30 and 90 and [zoomSensitivity = 0.01], a delta of 10000 takes
    any field of view that is not below -10 to exactly 90. *)
Theorem wheel_zooms (e : WheelEvent.t) this :
  enableZoom this = true ->
  let fov' :=
    MathUtils.clamp
      (fov (camera this) + WheelEvent.deltaY e * zoomSensitivity this)
      (_minFov this) (_maxFov this) in
  deliver (wheel e) this =
    (set_camera (updateProjectionMatrix (set_fov fov' (camera this))) this,
     [preventDefault])
  /\ fov (camera (fst (deliver (wheel e) this))) = fov'
  /\ (forall cam : PerspectiveCamera Pose Projection,
        _minFov (new cam) = 30 /\ _maxFov (new cam) = 90)
  /\ (forall ev this1,
        _minFov (fst (deliver ev this1)) = _minFov this1
        /\ _maxFov (fst (deliver ev this1)) = _maxFov this1)
  /\ (_minFov this = 30 -> _maxFov this = 90 ->
      zoomSensitivity this = 0.01 -> WheelEvent.deltaY e = 10000 ->
      -10 <= fov (camera this) ->
      fov (camera (fst (deliver (wheel e) this))) = 90).
Proof.
  intros Hzoom fov'.
  assert (Hrun : deliver (wheel e) this =
    (set_camera (updateProjectionMatrix (set_fov fov' (camera this))) this,
     [preventDefault])).
  { subst fov'. destruct this as [cam rs ez zs mb tc yaw pitch lo hi drag prev].
    cbn [enableZoom] in Hzoom. subst ez. run_handler. reflexivity. }
  assert (Hfov : fov (camera (fst (deliver (wheel e) this))) = fov').
  { rewrite Hrun. reflexivity. }
  split; [exact Hrun|]. split; [exact Hfov|].
  split; [intros cam; split; reflexivity|].
  split; [intros ev this1; apply fov_bounds_fixed|].
  intros Hlo Hhi Hzs Hdelta Hfov0. rewrite Hfov. subst fov'.
  rewrite Hlo, Hhi, Hzs, Hdelta.
  unfold MathUtils.clamp, Math.max, Math.min.
  rewrite Rmin_left by lra. apply Rmax_right. lra.
Qed.

(** C9.  A touch-start or touch-move that reports two or more touch points
    changes neither lastPointer nor yaw nor pitch, in whatever state it
    arrives; and a touch-start or touch-move that does change one of them
    reports exactly one touch point. *)
Theorem second_touch_is_isolated (e : TouchEvent.t) this :
  (2 <= length (TouchEvent.touches e))%nat ->
  tracked (fst (deliver (touchstart e) this)) = tracked this
  /\ tracked (fst (deliver (touchmove e) this)) = tracked this
  /\ (forall e',
        tracked (fst (deliver (touchstart e') this)) <> tracked this
        \/ tracked (fst (deliver (touchmove e') this)) <> tracked this ->
        length (TouchEvent.touches e') = 1%nat).
Proof.
  intros Hmany. destruct this as [cam rs ez zs mb tc yaw pitch lo hi drag prev].
  repeat split.
  - destruct e as [[|t0 [|t1 ts]]]; cbn in Hmany; try reflexivity.
    exfalso. apply (Nat.nle_succ_diag_l 1). exact Hmany.
  - destruct e as [[|t0 [|t1 ts]]]; cbn in Hmany; try reflexivity.
    exfalso. apply (Nat.nle_succ_diag_l 1). exact Hmany.
  - intros e'. destruct e' as [[|t0 [|t1 ts]]]; try reflexivity;
      intros [Hch|Hch]; exfalso; apply Hch; reflexivity.
Qed.

(** C10.  With zoom disabled the wheel handler returns at once: the
    controller and its camera (field of view, projection matrix,
    orientation), yaw and pitch are as they were, and no effect happens, so
    [preventDefault] is not called on the event. *)
Theorem wheel_disabled_is_noop (e : WheelEvent.t) this :
  enableZoom this = false ->
  deliver (wheel e) this = (this, []).
Proof.
  destruct this as [cam rs ez zs mb tc yaw pitch lo hi drag prev].
  cbn [enableZoom]. intros ->. reflexivity.
Qed.

End Properties.

(** ** Closed runs on the concrete camera *)


Lemma drag_move_rotates_witness :
  _isDragging pressed = true
  /\ snd (deliver (mousemove (MouseEvent.mk 0 110 10)) pressed)
     = [dispatchEvent changeEvent]
  /\ _previousMousePosition
       (fst (deliver (mousemove (MouseEvent.mk 0 110 10)) pressed))
     = Point.mk 110 10.
Proof.
  assert (Hdrag : _isDragging pressed = true) by reflexivity.
  split; [exact Hdrag|].
  pose proof (drag_move_rotates (MouseEvent.mk 0 110 10) pressed Hdrag) as Hrun.
  cbv zeta in Hrun. rewrite Hrun. split; reflexivity.
Defined.

(** C3, counterexample.  A camera facing (0, 0, -1) that reports its zero
    components as [-0], as a three.js camera facing -Z does: the press
    stores yaw -PI, not PI. *)
Lemma press_facing_minus_z_stores_minus_pi :
  @getWorldDirection _ _ NegatingCamera (camera fresh) = Vector3.mk 0 0 (-1)
  /\ @negativeZeros _ _ NegatingCamera (camera fresh) = (true, true)
  /\ mouseAction (mouseButtons fresh) 0 = Some MOUSE.ROTATE
  /\ _yaw (fst (deliver (three:=NegatingCamera)
                  (mousedown (MouseEvent.mk 0 10 10)) fresh))
     = - Math.PI
  /\ - Math.PI <> Math.PI.
Proof.
  split; [reflexivity|]. split; [reflexivity|]. split; [reflexivity|]. split.
  - exact (atan2_facing_minus_z true true).
  - unfold Math.PI. pose proof PI_RGT_0. lra.
Qed.

Lemma mouse_press_resyncs_witness :
  mouseAction (mouseButtons fresh) 0 = Some MOUSE.ROTATE
  /\ _yaw (fst (deliver (mousedown (MouseEvent.mk 0 10 10)) fresh)) = Math.PI
  /\ _pitch (fst (deliver (mousedown (MouseEvent.mk 0 10 10)) fresh)) = 0.
Proof.
  assert (Hrot : mouseAction (mouseButtons fresh)
                   (MouseEvent.button (MouseEvent.mk 0 10 10))
                 = Some MOUSE.ROTATE) by reflexivity.
  split; [exact Hrot|].
  exact (proj2 (proj2 (proj2 (mouse_press_resyncs (MouseEvent.mk 0 10 10)
                                fresh Hrot))) eq_refl).
Defined.

(** C4, counterexample.  On a new controller no drag is active, yet a touch
    move with one touch point at (100, 0) turns yaw from 0 to -0.5 and
    dispatches [change]. *)
Lemma idle_touch_move_rotates :
  _isDragging fresh = false
  /\ _yaw fresh = 0
  /\ _yaw (fst (deliver (touchmove (TouchEvent.mk [Touch.mk 100 0])) fresh)) = -0.5
  /\ snd (deliver (touchmove (TouchEvent.mk [Touch.mk 100 0])) fresh)
     = [dispatchEvent changeEvent].
Proof.
  split; [reflexivity|]. split; [reflexivity|]. split; [|reflexivity].
  pose proof (single_touch_move_rotates (Touch.mk 100 0) fresh) as Hrun.
  cbv zeta in Hrun. rewrite Hrun. unfold fresh, new.
  cbn [fst _yaw _previousMousePosition rotateSensitivity Touch.clientX Point.x].
  lra.
Qed.

Lemma idle_mouse_move_is_noop_witness :
  _isDragging fresh = false
  /\ deliver (mousemove (MouseEvent.mk 0 110 10)) fresh = (fresh, []).
Proof.
  assert (Hidle : _isDragging fresh = false) by reflexivity.
  split; [exact Hidle|].
  exact (proj1 (idle_mouse_move_is_noop (MouseEvent.mk 0 110 10) fresh Hidle)).
Defined.

(** C5, at the failing input.  The camera faces (0, 0, -1), which decomposes
    to yaw PI, and a mouse press on the new controller stores that yaw; a
    touch-start with one finger leaves yaw at its initial 0, which is not
    PI, and leaves the drag flag off. *)
Lemma touch_start_skips_resync :
  getWorldDirection (camera fresh) = Vector3.mk 0 0 (-1)
  /\ _yaw (fst (deliver (mousedown (MouseEvent.mk 0 10 10)) fresh)) = Math.PI
  /\ _yaw (fst (deliver (touchstart (TouchEvent.mk [Touch.mk 10 10])) fresh)) = 0
  /\ _isDragging (fst (deliver (touchstart (TouchEvent.mk [Touch.mk 10 10])) fresh))
     = false
  /\ 0 <> Math.PI.
Proof.
  split; [reflexivity|]. split.
  - exact (atan2_facing_minus_z false false).
  - split; [reflexivity|]. split; [reflexivity|].
    unfold Math.PI. pose proof PI_RGT_0. lra.
Qed.

(** C6, at the failing input.  With no touch count bound to rotate, a
    one-finger touch-start at (5, 7) still dispatches [start] and still
    overwrites lastPointer. *)
Lemma unbound_touch_start_is_not_inert :
  ONE (touches touchUnbound) = None
  /\ TWO (touches touchUnbound) = None
  /\ deliver (touchstart (TouchEvent.mk [Touch.mk 5 7])) touchUnbound
     = (set_previousMousePosition (Point.mk 5 7) touchUnbound,
        [dispatchEvent startEvent])
  /\ _previousMousePosition touchUnbound = Point.mk 0 0.
Proof. repeat split. Qed.

(** C7, counterexample.  While the left button is held the drag flag is on,
    and a touch-end leaves it on. *)
Lemma touch_end_keeps_drag_flag :
  _isDragging pressed = true
  /\ _isDragging (fst (deliver touchend pressed)) = true.
Proof. split; reflexivity. Qed.

Lemma wheel_zooms_witness :
  enableZoom fresh = true
  /\ fov (camera (fst (deliver (wheel (WheelEvent.mk 10000)) fresh))) = 90.
Proof.
  assert (Hzoom : enableZoom fresh = true) by reflexivity.
  split; [exact Hzoom|].
  apply (wheel_zooms (WheelEvent.mk 10000) fresh Hzoom); try reflexivity.
  unfold fresh, new, camera0, cameraFacing. cbn [camera fov]. lra.
Defined.

Lemma second_touch_is_isolated_witness :
  (2 <= length [Touch.mk 5 7; Touch.mk 300 400])%nat
  /\ tracked (fst (deliver (touchmove (TouchEvent.mk [Touch.mk 5 7; Touch.mk 300 400]))
                     (fst (deliver (touchstart (TouchEvent.mk [Touch.mk 5 7])) fresh))))
     = (Point.mk 5 7, 0, 0).
Proof.
  assert (Hmany : (2 <= length (TouchEvent.touches
                     (TouchEvent.mk [Touch.mk 5 7; Touch.mk 300 400])))%nat)
    by apply le_n.
  split; [exact Hmany|].
  rewrite (proj1 (proj2 (second_touch_is_isolated _
             (fst (deliver (touchstart (TouchEvent.mk [Touch.mk 5 7])) fresh))
             Hmany))).
  reflexivity.
Defined.

Lemma wheel_disabled_is_noop_witness :
  enableZoom zoomDisabled = false
  /\ deliver (wheel (WheelEvent.mk 10000)) zoomDisabled = (zoomDisabled, []).
Proof.
  assert (Hoff : enableZoom zoomDisabled = false) by reflexivity.
  split; [exact Hoff|].
  exact (wheel_disabled_is_noop (WheelEvent.mk 10000) zoomDisabled Hoff).
Defined.

(** ** Gestures and invariants over event sequences *)

Section Gestures.

Context {Pose Projection : Type} {three : Three Pose Projection}.

Implicit Types (this : SpinCameraControls Pose Projection).

Lemma play_cons (ev : DomEvent) (rest : list DomEvent) this :
  play (ev :: rest) this =
    (fst (play rest (fst (deliver ev this))),
     snd (deliver ev this) ++ snd (play rest (fst (deliver ev this)))).
Proof.
  cbn [play]. destruct (deliver ev this) as [this1 l1]. cbn [fst snd].
  destruct (play rest this1) as [this2 l2]. reflexivity.
Qed.

Lemma last_cons_default {A} (a d : A) (l : list A) :
  last (a :: l) d = last l a.
Proof.
  revert a d. induction l as [|b l IH]; intros a d; [reflexivity|].
  change (last (a :: b :: l) d) with (last (b :: l) d).
  rewrite (IH b d), (IH b a). reflexivity.
Qed.

(** What one mouse move does to the fields a drag depends on. *)
Lemma drag_move_fields (e : MouseEvent.t) this :
  _isDragging this = true ->
  _isDragging (fst (deliver (mousemove e) this)) = true
  /\ rotateSensitivity (fst (deliver (mousemove e) this)) = rotateSensitivity this
  /\ _previousMousePosition (fst (deliver (mousemove e) this))
     = Point.mk (MouseEvent.clientX e) (MouseEvent.clientY e)
  /\ _yaw (fst (deliver (mousemove e) this))
     = _yaw this
       - (MouseEvent.clientX e - Point.x (_previousMousePosition this))
         * rotateSensitivity this
  /\ snd (deliver (mousemove e) this) = [dispatchEvent changeEvent].
Proof.
  destruct this as [cam rs ez zs mb tc yaw pitch lo hi drag prev].
  cbn [_isDragging]. intros ->. run_handler. repeat split.
Qed.

(** During a drag the yaw depends only on where the pointer is now, not on
    the path it took: after any number of mouse moves it is the yaw at the
    start moved by the total horizontal travel. *)
Theorem drag_yaw_is_path_independent (moves : list MouseEvent.t) this :
  _isDragging this = true ->
  _yaw (fst (play (map mousemove moves) this)) =
    _yaw this
    - (last (map MouseEvent.clientX moves) (Point.x (_previousMousePosition this))
       - Point.x (_previousMousePosition this))
      * rotateSensitivity this.
Proof.
  revert this. induction moves as [|e rest IH]; intros this Hdrag.
  - cbn [map play fst last]. ring.
  - cbn [map]. rewrite play_cons. cbn [fst].
    destruct (drag_move_fields e this Hdrag) as (Hd & Hrs & Hprev & Hyaw & _).
    rewrite (IH _ Hd), Hrs, Hprev, Hyaw, last_cons_default.
    cbn [Point.x]. ring.
Qed.

Lemma drag_moves_then_release (moves : list MouseEvent.t) this :
  _isDragging this = true ->
  snd (play (map mousemove moves ++ [mouseup]) this)
  = repeat (dispatchEvent changeEvent) (length moves) ++ [dispatchEvent endEvent]
  /\ _isDragging (fst (play (map mousemove moves ++ [mouseup]) this)) = false.
Proof.
  revert this. induction moves as [|e rest IH]; intros this Hdrag.
  - destruct this as [cam rs ez zs mb tc yaw pitch lo hi drag prev].
    split; reflexivity.
  - cbn [map app length repeat]. rewrite play_cons. cbn [fst snd].
    destruct (drag_move_fields e this Hdrag) as (Hd & _ & _ & _ & Heff).
    destruct (IH _ Hd) as [IHeff IHflag].
    rewrite Heff, IHeff, IHflag. split; reflexivity.
Qed.

(** A whole mouse gesture, a press on a button bound to rotate, any number
    of moves and a release, emits [start], then one [change] per move, then
    [end], and nothing else; the drag is over at the end. *)
Theorem gesture_emits_start_changes_end
  (e0 : MouseEvent.t) (moves : list MouseEvent.t) this :
  mouseAction (mouseButtons this) (MouseEvent.button e0) = Some MOUSE.ROTATE ->
  snd (play (mousedown e0 :: map mousemove moves ++ [mouseup]) this)
  = dispatchEvent startEvent
    :: repeat (dispatchEvent changeEvent) (length moves)
    ++ [dispatchEvent endEvent]
  /\ _isDragging (fst (play (mousedown e0 :: map mousemove moves ++ [mouseup]) this))
     = false.
Proof.
  intros Hrot. rewrite play_cons. cbn [fst snd].
  assert (Hpress : snd (deliver (mousedown e0) this) = [dispatchEvent startEvent]
                   /\ _isDragging (fst (deliver (mousedown e0) this)) = true).
  { destruct this as [cam rs ez zs mb tc yaw pitch lo hi drag prev].
    cbn [mouseButtons] in Hrot. run_handler. rewrite Hrot. split; reflexivity. }
  destruct Hpress as [Hstart Hdrag].
  destruct (drag_moves_then_release moves _ Hdrag) as [Heff Hflag].
  rewrite Hstart, Heff, Hflag. split; reflexivity.
Qed.

(** After a release (or on a controller that is not dragging) mouse moves
    are dead: any number of them leaves the controller as the release left
    it and emits nothing after the [end]. *)
Theorem moves_after_release_are_inert (moves : list MouseEvent.t) this :
  play (mouseup :: map mousemove moves) this
  = (set_isDragging false this, [dispatchEvent endEvent]).
Proof.
  rewrite play_cons.
  assert (Hup : deliver mouseup this
                = (set_isDragging false this, [dispatchEvent endEvent])).
  { destruct this as [cam rs ez zs mb tc yaw pitch lo hi drag prev]. reflexivity. }
  rewrite Hup. cbn [fst snd].
  assert (Hidle : forall this1, _isDragging this1 = false ->
            play (map mousemove moves) this1 = (this1, [])).
  { induction moves as [|e rest IH]; intros this1 Hoff; [reflexivity|].
    cbn [map]. rewrite play_cons.
    assert (Hmove : deliver (mousemove e) this1 = (this1, [])).
    { destruct this1 as [cam rs ez zs mb tc yaw pitch lo hi drag prev].
      cbn [_isDragging] in Hoff. subst drag. reflexivity. }
    rewrite Hmove. cbn [fst snd]. rewrite (IH _ Hoff). reflexivity. }
  rewrite Hidle by (destruct this; reflexivity). reflexivity.
Qed.

(** One event never writes a setting, a zoom bound or the camera position. *)
Lemma deliver_keeps_configuration (ev : DomEvent) this :
  configuration (fst (deliver ev this)) = configuration this
  /\ position (camera (fst (deliver ev this))) = position (camera this).
Proof.
  destruct this as [cam rs ez zs mb tc yaw pitch lo hi drag prev].
  unfold configuration.
  destruct ev as [e|e| | |e|e| |e]; run_handler.
  - destruct (notRotate _); split; reflexivity.
  - destruct drag; split; reflexivity.
  - split; reflexivity.
  - split; reflexivity.
  - destruct e as [[|t0 [|t1 ts]]]; split; reflexivity.
  - destruct e as [[|t0 [|t1 ts]]]; split; reflexivity.
  - split; reflexivity.
  - destruct ez; split; reflexivity.
Qed.

(** No sequence of events moves the camera or changes a setting: the
    sensitivities, the zoom switch, the button and touch bindings, the zoom
    bounds and the camera position are at the end what they were at the
    start.  The controller turns and zooms the camera in place. *)
Theorem events_never_move_or_reconfigure (evs : list DomEvent) this :
  configuration (fst (play evs this)) = configuration this
  /\ position (camera (fst (play evs this))) = position (camera this).
Proof.
  revert this. induction evs as [|ev rest IH]; intros this.
  - split; reflexivity.
  - rewrite play_cons. cbn [fst].
    destruct (IH (fst (deliver ev this))) as [IHc IHp].
    destruct (deliver_keeps_configuration ev this) as [Hc Hp].
    split; congruence.
Qed.

Lemma clamp_in_range (v lo hi : R) :
  lo <= hi -> lo <= MathUtils.clamp v lo hi <= hi.
Proof.
  intros Hle. unfold MathUtils.clamp, Math.max, Math.min. split.
  - apply Rmax_l.
  - apply Rmax_lub; [exact Hle | apply Rmin_l].
Qed.

(** With zoom enabled and the lower zoom bound not above the upper one, a
    single wheel event brings the field of view between the bounds, whatever
    it was before and whatever the scroll delta and the sensitivity are. *)
Theorem wheel_lands_in_fov_range (e : WheelEvent.t) this :
  enableZoom this = true ->
  _minFov this <= _maxFov this ->
  fov_in_range this (fst (deliver (wheel e) this)).
Proof.
  destruct this as [cam rs ez zs mb tc yaw pitch lo hi drag prev].
  unfold fov_in_range. cbn [enableZoom _minFov _maxFov]. intros -> Hle.
  run_handler. apply clamp_in_range. exact Hle.
Qed.

Lemma deliver_fov_in_range (ev : DomEvent) this :
  _minFov this <= _maxFov this ->
  fov_in_range this this ->
  fov_in_range this (fst (deliver ev this)).
Proof.
  destruct this as [cam rs ez zs mb tc yaw pitch lo hi drag prev].
  unfold fov_in_range. cbn [_minFov _maxFov camera]. intros Hle Hin.
  destruct ev as [e|e| | |e|e| |e]; run_handler.
  - destruct (notRotate _); exact Hin.
  - destruct drag; exact Hin.
  - exact Hin.
  - exact Hin.
  - destruct e as [[|t0 [|t1 ts]]]; exact Hin.
  - destruct e as [[|t0 [|t1 ts]]]; exact Hin.
  - exact Hin.
  - destruct ez; [apply clamp_in_range; exact Hle | exact Hin].
Qed.

(** Once the field of view is between the zoom bounds it stays there: after
    every event of every sequence it is still between them.  Rotating never
    changes it and zooming clamps it. *)
Theorem fov_stays_in_range (evs : list DomEvent) this :
  _minFov this <= _maxFov this ->
  fov_in_range this this ->
  Forall (fov_in_range this) (history evs this).
Proof.
  intros Hle Hin.
  assert (Hgen : forall this1,
            _minFov this1 = _minFov this -> _maxFov this1 = _maxFov this ->
            fov_in_range this this1 ->
            Forall (fov_in_range this) (history evs this1)).
  { induction evs as [|ev rest IH]; intros this1 Hlo Hhi Hin1; cbn [history].
    - constructor.
    - destruct (fov_bounds_fixed ev this1) as [Hlo1 Hhi1].
      assert (Hstep : fov_in_range this (fst (deliver ev this1))).
      { pose proof (deliver_fov_in_range ev this1) as Hs.
        unfold fov_in_range in *. rewrite Hlo, Hhi in Hs. apply Hs; assumption. }
      constructor; [exact Hstep|].
      apply IH; [congruence | congruence | exact Hstep]. }
  apply Hgen; [reflexivity | reflexivity | exact Hin].
Qed.

(** How the pitch clamp of a drag move acts: a new pitch inside
    [-PI/2, PI/2] is stored as it is, one above is stored as PI/2 and one
    below as -PI/2, so that dragging past a pole sticks to the pole. *)
Theorem drag_pitch_saturates (e : MouseEvent.t) this :
  _isDragging this = true ->
  let v := _pitch this
           - (MouseEvent.clientY e - Point.y (_previousMousePosition this))
             * rotateSensitivity this in
  let pitch' := _pitch (fst (deliver (mousemove e) this)) in
  (- (Math.PI / 2) <= v <= Math.PI / 2 -> pitch' = v)
  /\ (Math.PI / 2 <= v -> pitch' = Math.PI / 2)
  /\ (v <= - (Math.PI / 2) -> pitch' = - (Math.PI / 2)).
Proof.
  destruct this as [cam rs ez zs mb tc yaw pitch lo hi drag prev].
  cbn [_isDragging]. intros ->. run_handler.
  cbv beta iota zeta delta [Point.y MouseEvent.clientY].
  pose proof half_pi_positive as Hpos.
  unfold Math.max, Math.min.
  repeat split; intros Hv.
  - rewrite Rmin_right by lra. rewrite Rmax_right by lra. reflexivity.
  - rewrite Rmin_left by lra. rewrite Rmax_right by lra. reflexivity.
  - rewrite Rmin_right by lra. rewrite Rmax_left by lra. lra.
Qed.

(** A press of any button other than 0 (left) and 2 (right) does nothing,
    whatever the button bindings are: the middle button cannot start a
    drag. *)
Theorem other_buttons_never_drag (e : MouseEvent.t) this :
  MouseEvent.button e <> 0%Z ->
  MouseEvent.button e <> 2%Z ->
  deliver (mousedown e) this = (this, []).
Proof.
  destruct this as [cam rs ez zs mb tc yaw pitch lo hi drag prev].
  intros H0 H2. run_handler. unfold mouseAction.
  destruct (Z.eqb_spec (MouseEvent.button e) 0) as [Heq|_]; [now elim H0|].
  destruct (Z.eqb_spec (MouseEvent.button e) 2) as [Heq|_]; [now elim H2|].
  reflexivity.
Qed.

(** The drag flag changes only at a press and at a release: an event that
    changes it is either a mouse press on a button bound to rotate, which
    turns it on, or a mouse-up or mouse-leave, which turns it off.  Moves,
    touch events and wheel events never change it. *)
Theorem drag_flag_changes_only_at_press_and_release (ev : DomEvent) this :
  _isDragging (fst (deliver ev this)) <> _isDragging this ->
  (exists e, ev = mousedown e
             /\ mouseAction (mouseButtons this) (MouseEvent.button e)
                = Some MOUSE.ROTATE
             /\ _isDragging (fst (deliver ev this)) = true)
  \/ ((ev = mouseup \/ ev = mouseleave)
      /\ _isDragging (fst (deliver ev this)) = false).
Proof.
  destruct this as [cam rs ez zs mb tc yaw pitch lo hi drag prev].
  destruct ev as [e|e| | |e|e| |e]; cbn [mouseButtons _isDragging].
  - intros Hch. left. exists e. revert Hch. run_handler.
    destruct (mouseAction mb (MouseEvent.button e)) as [[| |]|];
      cbn [notRotate MOUSE.eqb negb]; intros Hch;
      try (now elim Hch). repeat split.
  - run_handler. destruct drag; intros Hch; now elim Hch.
  - intros _. right. split; [now left | reflexivity].
  - intros _. right. split; [now right | reflexivity].
  - run_handler. destruct e as [[|t0 [|t1 ts]]]; intros Hch; now elim Hch.
  - run_handler. destruct e as [[|t0 [|t1 ts]]]; intros Hch; now elim Hch.
  - intros Hch; now elim Hch.
  - run_handler. destruct ez; intros Hch; now elim Hch.
Qed.

End Gestures.

(** ** Angles and directions *)

Section Resync.

Context {Pose Projection : Type} {three : Three Pose Projection}.

Implicit Types (this : SpinCameraControls Pose Projection).

Lemma atan_ratio (k u : R) :
  k <> 0 -> - (PI / 2) < u < PI / 2 ->
  atan (k * sin u / (k * cos u)) = u.
Proof.
  intros Hk Hu.
  assert (Hc : 0 < cos u) by (apply cos_gt_0; lra).
  replace (k * sin u / (k * cos u)) with (tan u).
  - now apply atan_tan.
  - unfold tan. field. split; lra.
Qed.

(** [atan2] recovers the angle of a point given in polar form, for angles
    in (-PI, PI]; at PI itself, where the point has [y = 0] and [x < 0], it
    answers -PI when that zero is [-0]. *)
Lemma atan2_polar (k a : R) (ny nx : bool) :
  0 < k -> - Math.PI < a <= Math.PI ->
  Math.atan2 (Number.mk (k * Math.sin a) ny) (Number.mk (k * Math.cos a) nx) = a
  \/ (a = Math.PI /\ ny = true
      /\ Math.atan2 (Number.mk (k * Math.sin a) ny) (Number.mk (k * Math.cos a) nx)
         = - Math.PI).
Proof.
  unfold Math.atan2, Math.sin, Math.cos, Math.PI.
  cbn [Number.value Number.negativeZero].
  intros Hk [Hlo Hhi]. pose proof PI_RGT_0 as Hpi.
  destruct (Req_dec a PI) as [Hpole|Hne].
  - subst a. rewrite sin_PI, cos_PI. replace (k * 0) with 0 by ring.
    destruct (Rlt_dec 0 (k * -1)) as [Hx|_]; [exfalso; lra|].
    destruct (Rlt_dec (k * -1) 0) as [_|Hx]; [|exfalso; lra].
    destruct (Rlt_dec 0 0) as [Hy|_]; [exfalso; lra|].
    destruct ny; [right; repeat split | left; reflexivity].
  - left. destruct ny, nx;
      (destruct (Rtotal_order a (PI / 2)) as [Hlt|[Heq|Hgt]];
       [ destruct (Rtotal_order a (- (PI / 2))) as [Hlt'|[Heq'|Hgt']];
         [ assert (Hc : cos a < 0)
             by (rewrite <- cos_neg; apply cos_lt_0; lra);
           assert (Hs : sin a < 0) by (apply sin_lt_0_var; lra);
           assert (Hu : atan (k * sin a / (k * cos a)) = a + PI)
             by (replace (k * sin a) with (- k * sin (a + PI))
                   by (rewrite neg_sin; ring);
                 replace (k * cos a) with (- k * cos (a + PI))
                   by (rewrite neg_cos; ring);
                 apply atan_ratio; lra);
           split_sign; nra
         | subst a; rewrite sin_neg, cos_neg, sin_PI2, cos_PI2;
           split_sign; lra
         | assert (Hc : 0 < cos a) by (apply cos_gt_0; lra);
           assert (Hu : atan (k * sin a / (k * cos a)) = a)
             by (apply atan_ratio; lra);
           split_sign; nra ]
       | subst a; rewrite sin_PI2, cos_PI2; split_sign; lra
       | assert (Hc : cos a < 0) by (apply cos_lt_0; lra);
         assert (Hs : 0 < sin a) by (apply sin_gt_0; lra);
         assert (Hu : atan (k * sin a / (k * cos a)) = a - PI)
           by (pose proof (neg_cos (a - PI)) as Hnc;
               pose proof (neg_sin (a - PI)) as Hns;
               replace (a - PI + PI) with a in Hnc, Hns by ring;
               replace (k * sin a) with (- k * sin (a - PI))
                 by (rewrite Hns; ring);
               replace (k * cos a) with (- k * cos (a - PI))
                 by (rewrite Hnc; ring);
               apply atan_ratio; lra);
         split_sign; nra ]).
Qed.

Lemma direction_is_unit (yaw pitch : R) (p : Vector3.t) :
  distance2 (Vector3.add (anglesToDirection yaw pitch) p) p = 1.
Proof.
  unfold distance2, anglesToDirection, Vector3.add, Math.sin, Math.cos.
  cbn [Vector3.x Vector3.y Vector3.z].
  pose proof (sin2_cos2 yaw) as Hy. pose proof (sin2_cos2 pitch) as Hp.
  unfold Rsqr in Hy, Hp. nra.
Qed.

(** [_updateCameraRotation] turns the camera towards a point exactly one
    unit away from it, for every yaw and pitch, and dispatches one
    [change]: the look direction it builds has length 1 and never
    degenerates. *)
Theorem camera_is_aimed_one_unit_ahead this :
  exec _updateCameraRotation this
  = (set_camera (lookAt (aim this) (camera this)) this,
     [dispatchEvent changeEvent])
  /\ distance2 (aim this) (position (camera this)) = 1.
Proof.
  split.
  - destruct this as [cam rs ez zs mb tc yaw pitch lo hi drag prev]. reflexivity.
  - apply direction_is_unit.
Qed.



(** Pressing does not make the view jump: when the camera faces the
    direction of the stored angles, with yaw in (-PI, PI] and pitch strictly
    between the poles, a press on a button bound to rotate re-derives the
    very same pitch and the very same yaw; the one exception is yaw PI on a
    camera that reports the zero [x] of its direction as [-0], where the
    press stores -PI, the same orientation. *)
Theorem press_on_synced_camera_keeps_angles (e : MouseEvent.t) this :
  in_sync this ->
  - Math.PI < _yaw this <= Math.PI ->
  - (Math.PI / 2) < _pitch this < Math.PI / 2 ->
  mouseAction (mouseButtons this) (MouseEvent.button e) = Some MOUSE.ROTATE ->
  (_yaw (fst (deliver (mousedown e) this)) = _yaw this
   \/ (_yaw this = Math.PI
       /\ fst (negativeZeros (camera this)) = true
       /\ _yaw (fst (deliver (mousedown e) this)) = - Math.PI))
  /\ _pitch (fst (deliver (mousedown e) this)) = _pitch this.
Proof.
  destruct this as [cam rs ez zs mb tc yaw pitch lo hi drag prev].
  unfold in_sync. cbn [camera _yaw _pitch mouseButtons].
  intros Hsync Hyaw Hpitch Hrot. run_handler. rewrite Hrot.
  cbn [notRotate MOUSE.eqb negb fst _yaw _pitch].
  unfold worldDirectionX, worldDirectionZ. rewrite Hsync.
  unfold anglesToDirection. cbn [Vector3.x Vector3.y Vector3.z]. split.
  - apply atan2_polar; [|exact Hyaw].
    unfold Math.cos, Math.PI in *. apply cos_gt_0; lra.
  - unfold Math.asin, Math.sin, Math.PI in *. apply asin_sin. lra.
Qed.

End Resync.

(** ** Connecting and disconnecting *)

Section Wired.

Context {base : ControlsBase}.

Lemma document_on_same (id : nat) (f : Element.t -> Element.t) (w : Wiring) :
  document (on_element id f w) id = f (document w id).
Proof. cbn [on_element document]. now rewrite Nat.eqb_refl. Qed.

Lemma document_on_other (id id' : nat) (f : Element.t -> Element.t) (w : Wiring) :
  id' <> id -> document (on_element id f w) id' = document w id'.
Proof.
  intros Hne. cbn [on_element document].
  destruct (Nat.eqb_spec id' id) as [Heq|_]; [now elim Hne | reflexivity].
Qed.

Lemma unwired_has_no_own (ls : list EventListener.t)
  (t : string) (h : Handler.t) (p : option bool) :
  forallb (fun l => negb (is_own (EventListener.callback l))) ls = true ->
  existsb (EventListener.same (EventListener.mk t (own h) false p)) ls = false.
Proof.
  induction ls as [|l ls IH]; [reflexivity|].
  cbn [forallb existsb]. intros Hall.
  apply andb_true_iff in Hall. destruct Hall as [Hl Hls].
  rewrite (IH Hls), orb_false_r.
  unfold EventListener.same. cbn [EventListener.callback EventListener.type EventListener.capture].
  destruct (EventListener.callback l); [discriminate Hl|].
  cbn [Callback_eqb]. now rewrite andb_false_r.
Qed.

Lemma add_own_fresh (ls extra : list EventListener.t) (tA : string)
  (t : string) (h : Handler.t) (p : option bool) :
  forallb (fun l => negb (is_own (EventListener.callback l))) ls = true ->
  existsb (EventListener.same (EventListener.mk t (own h) false p)) extra = false ->
  Element.addEventListener t (own h) p (Element.mk (ls ++ extra) tA)
  = Element.mk (ls ++ (extra ++ [EventListener.mk t (own h) false p])) tA.
Proof.
  intros Hls Hextra. unfold Element.addEventListener.
  cbn [Element.listeners Element.touchAction].
  rewrite existsb_app, (unwired_has_no_own ls t h p Hls), Hextra.
  cbn [orb]. now rewrite app_assoc.
Qed.

Lemma remove_own_unwired (ls extra : list EventListener.t) (tA : string)
  (t : string) (h : Handler.t) :
  forallb (fun l => negb (is_own (EventListener.callback l))) ls = true ->
  Element.removeEventListener t (own h) (Element.mk (ls ++ extra) tA)
  = Element.mk
      (ls ++ filter (fun l' => negb (EventListener.same
                                      (EventListener.mk t (own h) false None) l'))
                    extra)
      tA.
Proof.
  intros Hls. unfold Element.removeEventListener.
  cbn [Element.listeners Element.touchAction]. rewrite filter_app. f_equal. f_equal.
  induction ls as [|l ls IH]; [reflexivity|].
  cbn [forallb] in Hls. apply andb_true_iff in Hls. destruct Hls as [Hl Hls].
  cbn [filter]. rewrite (IH Hls).
  unfold EventListener.same at 1.
  cbn [EventListener.callback EventListener.type EventListener.capture].
  destruct (EventListener.callback l); [discriminate Hl|].
  cbn [Callback_eqb]. now rewrite andb_false_r.
Qed.

(** What [connect] leaves on an element that held no listener of this
    controller: the listeners it had, then the eight of the controller. *)
Lemma connect_element (el : nat) (w : Wiring) :
  unwired (document (super_connect el w) el) ->
  document (connect el w) el
  = Element.mk
      (Element.listeners (document (super_connect el w) el) ++ controller_listeners)
      "none".
Proof.
  unfold unwired, connect. cbv zeta. rewrite !document_on_same.
  destruct (document (super_connect el w) el) as [ls tA].
  cbn [Element.listeners]. intros Hls.
  replace (Element.mk ls tA) with (Element.mk (ls ++ []) tA)
    by (now rewrite app_nil_r).
  repeat (rewrite add_own_fresh by (first [exact Hls | reflexivity])).
  reflexivity.
Qed.

Lemma registered_unwired (type : string) (ls extra : list EventListener.t) tA :
  forallb (fun l => negb (is_own (EventListener.callback l))) ls = true ->
  registered type (Element.mk (ls ++ extra) tA)
  = registered type (Element.mk extra tA).
Proof.
  intros Hls. unfold registered. cbn [Element.listeners].
  rewrite flat_map_app.
  replace (flat_map _ ls) with (@nil Handler.t); [reflexivity|].
  induction ls as [|l ls IH]; [reflexivity|].
  cbn [forallb] in Hls. apply andb_true_iff in Hls. destruct Hls as [Hl Hls].
  cbn [flat_map]. rewrite <- (IH Hls).
  destruct (EventListener.callback l); [discriminate Hl | reflexivity].
Qed.

End Wired.

Section Routing.

Context {base : ControlsBase}.
Context {Pose Projection : Type} {three : Three Pose Projection}.

(** After [connect], on an element that held no listener of this
    controller, every DOM event finds exactly one handler of the controller
    under its type, and calling it with the event is the handler the event
    belongs to (a mouse-leave runs [_onMouseUp]); the touch action of the
    element is [none], and the wheel listener is registered as not passive,
    which is what allows [_onWheel] to call [preventDefault]. *)
Theorem connect_wires_every_event (el : nat) (w : Wiring) (ev : DomEvent) :
  unwired (document (super_connect el w) el) ->
  map (fun h => invoke h ev)
      (registered (eventType ev) (document (connect el w) el))
  = [Some (listener (Pose:=Pose) (Projection:=Projection) ev)]
  /\ Element.touchAction (document (connect el w) el) = "none"%string
  /\ In (EventListener.mk "wheel" (own Handler._onWheel) false (Some false))
        (Element.listeners (document (connect el w) el)).
Proof.
  intros Hfresh. rewrite (connect_element el w Hfresh).
  split; [|split].
  - rewrite registered_unwired by exact Hfresh.
    destruct ev; reflexivity.
  - reflexivity.
  - cbn [Element.listeners]. apply in_or_app. right.
    unfold controller_listeners. cbn [In]. do 7 right. now left.
Qed.

End Routing.

Section Unwiring.

Context {base : ControlsBase}.

Lemma connect_domElement (el : nat) (w : Wiring) :
  domElement (connect el w) = domElement (super_connect el w).
Proof. reflexivity. Qed.

Lemma connect_other_element (el el' : nat) (w : Wiring) :
  el' <> el -> document (connect el w) el' = document (super_connect el w) el'.
Proof.
  intros Hne. unfold connect. cbv zeta.
  now rewrite !document_on_other by exact Hne.
Qed.

(** [disconnect] undoes [connect].  When the base class stores the
    connected element in [this.domElement] and its [disconnect] does
    nothing, connecting an element that held no listener of this controller
    and then disconnecting leaves the element with exactly the listeners it
    had, in the same order, and leaves every other element alone.  Two
    things are not put back: the touch action becomes [auto], whatever it
    was before, and [this.domElement] still names the element. *)
Theorem disconnect_undoes_connect (el : nat) (w : Wiring) :
  unwired (document (super_connect el w) el) ->
  domElement (super_connect el w) = Some el ->
  (forall w', super_disconnect w' = w') ->
  Element.listeners (document (disconnect (connect el w)) el)
  = Element.listeners (document (super_connect el w) el)
  /\ Element.touchAction (document (disconnect (connect el w)) el) = "auto"%string
  /\ (forall el', el' <> el ->
        document (disconnect (connect el w)) el'
        = document (super_connect el w) el')
  /\ domElement (disconnect (connect el w)) = Some el.
Proof.
  intros Hfresh Hstored Hinert.
  unfold disconnect. rewrite connect_domElement, Hstored. cbv zeta.
  rewrite Hinert. split; [|split; [|split]].
  - rewrite !document_on_same, (connect_element el w Hfresh).
    unfold controller_listeners. unfold unwired in Hfresh.
    repeat (rewrite remove_own_unwired by exact Hfresh).
    cbn. apply app_nil_r.
  - rewrite !document_on_same. reflexivity.
  - intros el' Hne. rewrite !document_on_other by exact Hne.
    now apply connect_other_element.
  - cbn [on_element domElement]. rewrite connect_domElement. exact Hstored.
Qed.

Lemma filter_all {A} (p : A -> bool) (l : list A) :
  (forall a, In a l -> p a = true) -> filter p l = l.
Proof.
  induction l as [|a l IH]; intros Hall; [reflexivity|].
  cbn [filter]. rewrite (Hall a (or_introl eq_refl)).
  f_equal. apply IH. intros b Hb. apply Hall. now right.
Qed.

(** [disconnect] can be called again, and [dispose] after it: when the
    [disconnect] of the base class does nothing, a second [disconnect]
    changes nothing, neither an element nor [this.domElement]; and with no
    [this.domElement] the first one already changes nothing. *)
Theorem disconnect_is_idempotent (w : Wiring) :
  (forall w', super_disconnect w' = w') ->
  domElement (dispose (disconnect w)) = domElement (disconnect w)
  /\ (forall el, document (dispose (disconnect w)) el = document (disconnect w) el)
  /\ (domElement w = None -> disconnect w = w).
Proof.
  intros Hinert. unfold dispose.
  assert (Hnone : domElement w = None -> disconnect w = w).
  { intros Hno. unfold disconnect. now rewrite Hno. }
  assert (Hmain :
    domElement (disconnect (disconnect w)) = domElement (disconnect w)
    /\ (forall el, document (disconnect (disconnect w)) el
                   = document (disconnect w) el)).
  { destruct (domElement w) as [element|] eqn:Hdom.
    - assert (Hdom1 : domElement (disconnect w) = Some element).
      { unfold disconnect. rewrite Hdom. cbv zeta. rewrite Hinert. exact Hdom. }
      split.
      + unfold disconnect at 1. rewrite Hdom1. cbv zeta. rewrite Hinert.
        cbn [on_element domElement]. exact Hdom1.
      + intros el. unfold disconnect at 1. rewrite Hdom1. cbv zeta. rewrite Hinert.
        destruct (Nat.eq_dec el element) as [->|Hne].
        * rewrite !document_on_same.
          unfold disconnect. rewrite Hdom. cbv zeta. rewrite Hinert.
          rewrite !document_on_same.
          destruct (document w element) as [ls tA].
          unfold Element.set_touchAction, Element.removeEventListener.
          cbn [Element.listeners Element.touchAction].
          f_equal.
          match goal with |- _ = ?kept => set (rest := kept) end.
          repeat (rewrite filter_all;
                  [| intros l Hl;
                     repeat first [ apply filter_In in Hl; destruct Hl as [Hl ?]
                                  | progress unfold rest in Hl ];
                     assumption]).
          reflexivity.
        * now rewrite !document_on_other by exact Hne.
    - rewrite !(Hnone eq_refl). split; reflexivity. }
  destruct Hmain as [Hd Hdoc]. split; [exact Hd | split; [exact Hdoc | exact Hnone]].
Qed.

(** Connecting the same element a second time registers no listener
    twice.  With the base class of three.js, whose [connect] first calls
    [this.disconnect()] when an element is already stored and then stores
    the element, and whose [disconnect] does nothing, and on an element
    that held no listener of this controller before the first [connect],
    the element is after the second [connect] exactly as after the first,
    and [this.domElement] still names it. *)
Theorem connect_again_leaves_element_as_it_was (el : nat) (w : Wiring) :
  (forall el' w', super_connect el' w' = controls_connect el' w') ->
  (forall w', super_disconnect w' = w') ->
  unwired (document (super_connect el w) el) ->
  document (connect el (connect el w)) el = document (connect el w) el
  /\ domElement (connect el (connect el w)) = Some el.
Proof.
  intros Hbase Hinert Hfresh.
  assert (Hdom1 : domElement (connect el w) = Some el).
  { rewrite connect_domElement, Hbase. reflexivity. }
  pose proof (connect_element el w Hfresh) as Hel1.
  assert (Hback : document (disconnect (connect el w)) el
                  = Element.mk (Element.listeners (document (super_connect el w) el))
                               "auto").
  { unfold disconnect. rewrite Hdom1. cbv zeta. rewrite Hinert.
    rewrite !document_on_same, Hel1.
    unfold controller_listeners. unfold unwired in Hfresh.
    repeat (rewrite remove_own_unwired by exact Hfresh).
    cbn. now rewrite app_nil_r. }
  assert (Hagain : document (super_connect el (connect el w)) el
                   = document (disconnect (connect el w)) el).
  { rewrite Hbase. unfold controls_connect. rewrite Hdom1. reflexivity. }
  assert (Hfresh2 : unwired (document (super_connect el (connect el w)) el)).
  { rewrite Hagain, Hback. exact Hfresh. }
  split.
  - rewrite (connect_element el (connect el w) Hfresh2), Hagain, Hback, Hel1.
    reflexivity.
  - rewrite connect_domElement, Hbase. reflexivity.
Qed.

End Unwiring.

(** ** Closed runs of gestures and wiring *)

Lemma drag_yaw_is_path_independent_witness :
  _isDragging pressed = true
  /\ _yaw (fst (play (map mousemove
                        [MouseEvent.mk 0 50 10; MouseEvent.mk 0 (-300) 20;
                         MouseEvent.mk 0 110 10])
                     pressed))
     = _yaw pressed - (110 - 10) * 0.005.
Proof.
  assert (Hdrag : _isDragging pressed = true) by reflexivity.
  split; [exact Hdrag|].
  exact (drag_yaw_is_path_independent
           [MouseEvent.mk 0 50 10; MouseEvent.mk 0 (-300) 20;
            MouseEvent.mk 0 110 10] pressed Hdrag).
Defined.

Lemma gesture_emits_start_changes_end_witness :
  mouseAction (mouseButtons fresh) 0 = Some MOUSE.ROTATE
  /\ snd (play (mousedown (MouseEvent.mk 0 10 10)
                :: map mousemove [MouseEvent.mk 0 50 10; MouseEvent.mk 0 110 10]
                ++ [mouseup])
               fresh)
     = [dispatchEvent startEvent; dispatchEvent changeEvent;
        dispatchEvent changeEvent; dispatchEvent endEvent].
Proof.
  assert (Hrot : mouseAction (mouseButtons fresh)
                   (MouseEvent.button (MouseEvent.mk 0 10 10))
                 = Some MOUSE.ROTATE) by reflexivity.
  split; [exact Hrot|].
  exact (proj1 (gesture_emits_start_changes_end (MouseEvent.mk 0 10 10)
                  [MouseEvent.mk 0 50 10; MouseEvent.mk 0 110 10] fresh Hrot)).
Defined.

Lemma wheel_lands_in_fov_range_witness :
  enableZoom fresh = true
  /\ _minFov fresh <= _maxFov fresh
  /\ fov_in_range fresh (fst (deliver (wheel (WheelEvent.mk (-7000))) fresh)).
Proof.
  assert (Hzoom : enableZoom fresh = true) by reflexivity.
  assert (Hle : _minFov fresh <= _maxFov fresh).
  { unfold fresh, new. cbn [_minFov _maxFov]. lra. }
  split; [exact Hzoom|]. split; [exact Hle|].
  exact (wheel_lands_in_fov_range (WheelEvent.mk (-7000)) fresh Hzoom Hle).
Defined.

Lemma fov_stays_in_range_witness :
  _minFov fresh <= _maxFov fresh
  /\ fov_in_range fresh fresh
  /\ Forall (fov_in_range fresh)
       (history
          [wheel (WheelEvent.mk 10000);
           mousedown (MouseEvent.mk 0 10 10);
           mousemove (MouseEvent.mk 0 110 10);
           wheel (WheelEvent.mk (-10000));
           mouseup]
          fresh).
Proof.
  assert (Hle : _minFov fresh <= _maxFov fresh).
  { unfold fresh, new. cbn [_minFov _maxFov]. lra. }
  assert (Hin : fov_in_range fresh fresh).
  { unfold fov_in_range, fresh, new, camera0, cameraFacing.
    cbn [_minFov _maxFov camera fov]. lra. }
  split; [exact Hle|]. split; [exact Hin|].
  exact (fov_stays_in_range _ fresh Hle Hin).
Defined.

Lemma drag_pitch_saturates_witness :
  _isDragging pressed = true
  /\ (Math.PI / 2
      <= _pitch pressed
         - (MouseEvent.clientY (MouseEvent.mk 0 10 (-9000))
            - Point.y (_previousMousePosition pressed))
           * rotateSensitivity pressed ->
      _pitch (fst (deliver (mousemove (MouseEvent.mk 0 10 (-9000))) pressed))
      = Math.PI / 2).
Proof.
  assert (Hdrag : _isDragging pressed = true) by reflexivity.
  split; [exact Hdrag|].
  exact (proj1 (proj2 (drag_pitch_saturates (MouseEvent.mk 0 10 (-9000))
                         pressed Hdrag))).
Defined.

Lemma other_buttons_never_drag_witness :
  1%Z <> 0%Z /\ 1%Z <> 2%Z
  /\ deliver (mousedown (MouseEvent.mk 1 10 10)) fresh = (fresh, []).
Proof.
  assert (H0 : MouseEvent.button (MouseEvent.mk 1 10 10) <> 0%Z)
    by (intros Heq; discriminate Heq).
  assert (H2 : MouseEvent.button (MouseEvent.mk 1 10 10) <> 2%Z)
    by (intros Heq; discriminate Heq).
  split; [exact H0|]. split; [exact H2|].
  exact (other_buttons_never_drag (MouseEvent.mk 1 10 10) fresh H0 H2).
Defined.

Lemma unbound_press_is_inert_witness :
  mouseAction (mouseButtons fresh) 2 <> Some MOUSE.ROTATE
  /\ deliver (mousedown (MouseEvent.mk 2 10 10)) fresh = (fresh, []).
Proof.
  assert (Hno : mouseAction (mouseButtons fresh)
                  (MouseEvent.button (MouseEvent.mk 2 10 10))
                <> Some MOUSE.ROTATE)
    by (intros Heq; discriminate Heq).
  split; [exact Hno|].
  exact (unbound_press_is_inert (MouseEvent.mk 2 10 10) fresh Hno).
Defined.

Lemma drag_flag_changes_only_at_press_and_release_witness :
  _isDragging (fst (deliver (mousedown (MouseEvent.mk 0 10 10)) fresh))
  <> _isDragging fresh
  /\ ((exists e, mousedown (MouseEvent.mk 0 10 10) = mousedown e
                 /\ mouseAction (mouseButtons fresh) (MouseEvent.button e)
                    = Some MOUSE.ROTATE
                 /\ _isDragging (fst (deliver (mousedown (MouseEvent.mk 0 10 10)) fresh))
                    = true)
      \/ ((mousedown (MouseEvent.mk 0 10 10) = mouseup
           \/ mousedown (MouseEvent.mk 0 10 10) = mouseleave)
          /\ _isDragging (fst (deliver (mousedown (MouseEvent.mk 0 10 10)) fresh))
             = false)).
Proof.
  assert (Hch : _isDragging (fst (deliver (mousedown (MouseEvent.mk 0 10 10)) fresh))
                <> _isDragging fresh)
    by (intros Heq; discriminate Heq).
  split; [exact Hch|].
  exact (drag_flag_changes_only_at_press_and_release
           (mousedown (MouseEvent.mk 0 10 10)) fresh Hch).
Defined.


Lemma press_on_synced_camera_keeps_angles_witness :
  in_sync synced
  /\ - Math.PI < _yaw synced <= Math.PI
  /\ - (Math.PI / 2) < _pitch synced < Math.PI / 2
  /\ mouseAction (mouseButtons synced) 0 = Some MOUSE.ROTATE
  /\ _yaw (fst (deliver (mousedown (MouseEvent.mk 0 3 4)) synced)) = _yaw synced
  /\ _pitch (fst (deliver (mousedown (MouseEvent.mk 0 3 4)) synced)) = _pitch synced.
Proof.
  assert (Hsync : in_sync synced) by reflexivity.
  assert (Hyaw : - Math.PI < _yaw synced <= Math.PI).
  { unfold synced, new, Math.PI. cbn [_yaw]. pose proof PI_RGT_0. lra. }
  assert (Hpitch : - (Math.PI / 2) < _pitch synced < Math.PI / 2).
  { unfold synced, new, Math.PI. cbn [_pitch]. pose proof PI_RGT_0. lra. }
  assert (Hrot : mouseAction (mouseButtons synced)
                   (MouseEvent.button (MouseEvent.mk 0 3 4))
                 = Some MOUSE.ROTATE) by reflexivity.
  split; [exact Hsync|]. split; [exact Hyaw|]. split; [exact Hpitch|].
  split; [exact Hrot|].
  destruct (press_on_synced_camera_keeps_angles
              (MouseEvent.mk 0 3 4) synced Hsync Hyaw Hpitch Hrot)
    as [[Hsame|(_ & Hminus & _)] Hp].
  - split; [exact Hsame | exact Hp].
  - discriminate Hminus.
Defined.

Lemma connect_wires_every_event_witness :
  unwired (document (super_connect 7 page0) 7)
  /\ map (fun h => invoke h mouseleave)
         (registered "mouseleave" (document (connect 7 page0) 7))
     = [Some (_onMouseUp (Pose:=Vector3.t) (Projection:=R))].
Proof.
  assert (Hfresh : unwired (document (super_connect 7 page0) 7)) by reflexivity.
  split; [exact Hfresh|].
  exact (proj1 (connect_wires_every_event (three:=PointingCamera)
                  7 page0 mouseleave Hfresh)).
Defined.

Lemma disconnect_undoes_connect_witness :
  unwired (document (super_connect 7 page0) 7)
  /\ domElement (super_connect 7 page0) = Some 7%nat
  /\ (forall w', super_disconnect w' = w')
  /\ Element.listeners (document (disconnect (connect 7 page0)) 7)
     = [EventListener.mk "click" (foreign 0) true None]
  /\ Element.touchAction (document (disconnect (connect 7 page0)) 7)
     = "auto"%string.
Proof.
  assert (Hfresh : unwired (document (super_connect 7 page0) 7)) by reflexivity.
  assert (Hstored : domElement (super_connect 7 page0) = Some 7%nat) by reflexivity.
  assert (Hinert : forall w', super_disconnect w' = w') by reflexivity.
  split; [exact Hfresh|]. split; [exact Hstored|]. split; [exact Hinert|].
  pose proof (disconnect_undoes_connect 7 page0 Hfresh Hstored Hinert) as Hback.
  split; [exact (proj1 Hback) | exact (proj1 (proj2 Hback))].
Defined.

Lemma disconnect_is_idempotent_witness :
  (forall w', super_disconnect w' = w')
  /\ domElement (dispose (disconnect (connect 7 page0)))
     = domElement (disconnect (connect 7 page0)).
Proof.
  assert (Hinert : forall w', super_disconnect w' = w') by reflexivity.
  split; [exact Hinert|].
  exact (proj1 (disconnect_is_idempotent (connect 7 page0) Hinert)).
Defined.

Lemma connect_again_leaves_element_as_it_was_witness :
  (forall el' w', @super_connect ThreeControls el' w'
                  = controls_connect (base:=ThreeControls) el' w')
  /\ (forall w', @super_disconnect ThreeControls w' = w')
  /\ unwired (document (@super_connect ThreeControls 7%nat page0) 7)
  /\ document (connect (base:=ThreeControls) 7
                 (connect (base:=ThreeControls) 7 page0)) 7
     = document (connect (base:=ThreeControls) 7 page0) 7.
Proof.
  assert (Hbase : forall el' w', @super_connect ThreeControls el' w'
                    = controls_connect (base:=ThreeControls) el' w')
    by reflexivity.
  assert (Hinert : forall w', @super_disconnect ThreeControls w' = w')
    by reflexivity.
  assert (Hfresh : unwired (document (@super_connect ThreeControls 7%nat page0) 7))
    by reflexivity.
  split; [exact Hbase|]. split; [exact Hinert|]. split; [exact Hfresh|].
  exact (proj1 (connect_again_leaves_element_as_it_was (base:=ThreeControls)
                  7 page0 Hbase Hinert Hfresh)).
Defined.
